(** * A shallow embedding of [script.py], the interactive pull-request helper.

    Python strings are modelled as [string]: sequences of characters
    whose code points lie in 0..255.  On that range the predicates used
    by the script are exact: the regular-expression class [\d] is the
    ten characters 0..9, [[a-z]] is the twenty-six lowercase letters,
    and [str.strip] removes the code points 9-13, 28-32, 133 and 160.

    The external world (the git executable, the terminal, the person at
    the keyboard) is modelled by an explicit state that is threaded
    through a small state-and-exception monad. *)

From Stdlib Require Import String Ascii List Bool Arith Lia.
From Stdlib Require Import Sorting.Sorted Sorting.Permutation.
Import ListNotations.

Local Open Scope list_scope.
Local Open Scope string_scope.
Local Open Scope nat_scope.

(* ================================================================== *)
(** ** Python string methods *)
(* ================================================================== *)

Module PyStr.

(** [bool(s)]: a string is truthy when it is not empty. *)
Definition truthy (s : string) : bool :=
  match s with
  | EmptyString => false
  | String _ _ => true
  end.

(** Characters removed by [str.strip()] (those with [str.isspace]). *)
Definition is_space (c : ascii) : bool :=
  let n := nat_of_ascii c in
  ((9 <=? n) && (n <=? 13)) || ((28 <=? n) && (n <=? 32))
  || (n =? 133) || (n =? 160).

Arguments is_space : simpl never.

Fixpoint lstrip (s : string) : string :=
  match s with
  | EmptyString => EmptyString
  | String c s' => if is_space c then lstrip s' else s
  end.

Fixpoint rstrip (s : string) : string :=
  match s with
  | EmptyString => EmptyString
  | String c s' =>
      match rstrip s' with
      | EmptyString => if is_space c then EmptyString else String c EmptyString
      | r => String c r
      end
  end.

Definition strip (s : string) : string := rstrip (lstrip s).

(** [s.startswith(p)] *)
Definition startswith (p s : string) : bool := String.prefix p s.

(** [s.endswith(suf)] *)
Fixpoint endswith (suf s : string) : bool :=
  (s =? suf)%string ||
  match s with
  | EmptyString => false
  | String _ s' => endswith suf s'
  end.

(** [s[:-n]] *)
Definition drop_last (n : nat) (s : string) : string :=
  String.substring 0 (String.length s - n) s.

(** [old in s] *)
Fixpoint contains (old s : string) : bool :=
  String.prefix old s ||
  match s with
  | EmptyString => false
  | String _ s' => contains old s'
  end.

(** [s.replace(old, new, count)] for a non-empty [old]; [count = None]
    is the unlimited replacement of the two-argument call.  [skip]
    counts the characters of a matched occurrence still to be
    dropped, so that occurrences never overlap. *)
Fixpoint replace_from (old new : string) (count : option nat) (skip : nat)
         (s : string) : string :=
  match s with
  | EmptyString => EmptyString
  | String c s' =>
      match skip with
      | S k => replace_from old new count k s'
      | O =>
          let more :=
            match count with
            | Some O => false
            | _ => true
            end in
          if more && String.prefix old s then
            new ++ replace_from old new (option_map Nat.pred count)
                                (String.length old - 1) s'
          else String c (replace_from old new count 0 s')
      end
  end.

(** [s.replace("", new, count)]: [new] is inserted before every
    character and at the end. *)
Fixpoint replace_empty (new : string) (count : option nat) (s : string)
  : string :=
  match count with
  | Some O => s
  | _ =>
      new ++ match s with
             | EmptyString => EmptyString
             | String c s' =>
                 String c (replace_empty new (option_map Nat.pred count) s')
             end
  end.

Definition replace (old new : string) (count : option nat) (s : string)
  : string :=
  match old with
  | EmptyString => replace_empty new count s
  | _ => replace_from old new count 0 s
  end.

(** [s.split(sep)] for a non-empty [sep]; [cur] holds the piece being
    collected. *)
Fixpoint split_from (sep : string) (skip : nat) (cur : string) (s : string)
  : list string :=
  match s with
  | EmptyString => [cur]
  | String c s' =>
      match skip with
      | S k => split_from sep k cur s'
      | O =>
          if String.prefix sep s then
            cur :: split_from sep (String.length sep - 1) EmptyString s'
          else split_from sep 0 (cur ++ String c EmptyString) s'
      end
  end.

Definition split (sep s : string) : list string :=
  split_from sep 0 EmptyString s.

(** [sep.join(parts)] *)
Definition join (sep : string) (parts : list string) : string :=
  String.concat sep parts.

(** The format specification [{s:<n}]: pad on the right with spaces. *)
Fixpoint spaces (n : nat) : string :=
  match n with
  | O => EmptyString
  | S k => String " " (spaces k)
  end.

Definition ljust (n : nat) (s : string) : string :=
  s ++ spaces (n - String.length s).

(** [l.index(x)]; [None] stands for the [ValueError] of a missing
    element. *)
Fixpoint index (x : string) (l : list string) : option nat :=
  match l with
  | [] => None
  | y :: l' =>
      if (y =? x)%string then Some 0
      else option_map S (index x l')
  end.

End PyStr.

(* ================================================================== *)
(** ** The regular expressions of the script *)
(* ================================================================== *)

Module Re.

(** Character classes that occur in the script's patterns. *)
Inductive cclass : Type :=
| LowerAZ   (* [a-z] *)
| Digit.    (* \d    *)

Definition class_mem (c : cclass) (a : ascii) : bool :=
  let n := nat_of_ascii a in
  match c with
  | LowerAZ => (97 <=? n) && (n <=? 122)
  | Digit => (48 <=? n) && (n <=? 57)
  end.

Arguments class_mem : simpl never.

(** A pattern is a sequence of capturing groups [(C+)].  The matcher
    is the backtracking one of [re]: a greedy [+] first tries to take
    one more character and only when the rest of the pattern then
    fails does it stop where it is.  [k] matches the remainder of the
    pattern. *)
Fixpoint match_plus (c : cclass) (k : string -> option (list string))
         (s : string) : option (list string) :=
  match s with
  | EmptyString => None
  | String a s' =>
      if class_mem c a then
        match match_plus c k s' with
        | Some (g :: gs) => Some (String a g :: gs)
        | _ => option_map (cons (String a EmptyString)) (k s')
        end
      else None
  end.

Fixpoint match_here (p : list cclass) (s : string) : option (list string) :=
  match p with
  | [] => Some []
  | c :: p' => match_plus c (match_here p') s
  end.

(** [re.match(p, s)]: anchored at the start of [s], not at its end.
    The result lists the captured groups, group 1 first. *)
Definition re_match (p : list cclass) (s : string) : option (list string) :=
  match_here p s.

(** [m.group(n)] for [n >= 1]. *)
Definition group (n : nat) (m : list string) : string :=
  nth (n - 1) m EmptyString.

End Re.

(* ================================================================== *)
(** ** Environment-order validation *)
(* ================================================================== *)

(** The pattern [([a-z]+)(\d+)]. *)
Definition env_pattern : list Re.cclass := [Re.LowerAZ; Re.Digit].

Definition env_order : list string := ["sbx"; "dev"; "uat"].

Definition is_valid_target_branch (source target : string) : bool :=
  let source_match := Re.re_match env_pattern source in
  let target_match := Re.re_match env_pattern target in
  match source_match, target_match with
  | Some sm, Some tm =>
      let source_env := Re.group 1 sm in
      let target_env := Re.group 1 tm in
      match PyStr.index source_env env_order with
      | None => true                       (* ValueError *)
      | Some source_idx =>
          match PyStr.index target_env env_order with
          | None => true                   (* ValueError *)
          | Some target_idx => source_idx <? target_idx
          end
      end
  | _, _ => true
  end.

(* ================================================================== *)
(** ** The configuration store *)
(* ================================================================== *)

(** [GitConfig.options] is a [dict] from field names to strings.  The
    order of its items matters to [review_config], so it is kept as an
    association list in insertion order. *)
Module GitConfig.

Definition t : Type := list (string * string).

(** [GitConfig()] *)
Definition init : t :=
  [ ("source_branch", ""); ("target_branch", ""); ("commit_message", "");
    ("pr_title", ""); ("pr_description", "") ].

(** [self.options[key] = value]: an existing key keeps its position, a
    new key goes to the end. *)
Fixpoint update_option (key value : string) (o : t) : t :=
  match o with
  | [] => [(key, value)]
  | (k, v) :: o' =>
      if (k =? key)%string then (k, value) :: o'
      else (k, v) :: update_option key value o'
  end.

(** [self.options[key]]; [None] stands for [KeyError]. *)
Fixpoint get_option (key : string) (o : t) : option string :=
  match o with
  | [] => None
  | (k, v) :: o' => if (k =? key)%string then Some v else get_option key o'
  end.

(** The five field names, in the order of the dictionary. *)
Definition fields : list string := map fst init.

End GitConfig.

(* ================================================================== *)
(** ** The world outside the script *)
(* ================================================================== *)

(** What [subprocess.run(argv, capture_output=True, text=True,
    check=True)] can do with arguments and output that are proper
    text.  An argument with a NUL character and output that cannot be
    decoded make the call raise other exceptions; they are outside
    this model. *)
Inductive proc_result : Type :=
| Exited0 (stdout : string)         (* return code 0 *)
| ExitedNonZero (stderr : string)   (* raises CalledProcessError *)
| NotStarted.                       (* raises OSError: no executable *)

(** The questions of [inquirer] the script asks, and what a person can
    answer: a position in a list of choices, or a typed line. *)
Inductive question : Type :=
| QList (name message : string) (choices : list string)
| QText (name message : string).

Inductive answer : Type :=
| Pick (position : nat)
| Typed (text : string).

(** Observable events, in the order they happen.  [EvMenu] and
    [EvExecutor] are ghost events: they record that [get_menu_choices]
    and [create_pr] were entered, and with which configuration. *)
Inductive event : Type :=
| EvGit (argv : list string)
| EvPrint (text : string)
| EvClear
| EvPrompt (q : question)
| EvMenu (config : GitConfig.t)
| EvExecutor (config : GitConfig.t).

Inductive exn : Type :=
| CalledProcessError (stderr : string)
| OSError
| KeyError (key : string)
| TypeError       (* subscripting the [None] of an aborted prompt *)
| SystemExit (code : nat)   (* the command line was refused *)
| OutOfFuel.      (* the model's bound on the menu loop was reached *)

Inductive result (A : Type) : Type :=
| Ok (a : A)
| Raise (e : exn).

Arguments Ok {A} a.
Arguments Raise {A} e.

(** [git_oracle history argv] is how the command [argv] ends when the
    commands of [history] ran before it; [keys] is what remains to be
    typed; [log] is what has happened so far. *)
Record world : Type := mkWorld {
  git_oracle : list (list string) -> list string -> proc_result;
  script_name : string;             (* sys.argv[0] *)
  keys : list answer;
  log : list event
}.

Fixpoint git_cmds (l : list event) : list (list string) :=
  match l with
  | [] => []
  | EvGit argv :: l' => argv :: git_cmds l'
  | _ :: l' => git_cmds l'
  end.


Definition is_interaction (e : event) : bool :=
  match e with
  | EvPrompt _ | EvMenu _ | EvClear => true
  | _ => false
  end.

(* ================================================================== *)
(** ** The monad of the script's effects *)
(* ================================================================== *)

Definition M (A : Type) : Type := world -> result A * world.

Definition ret {A} (a : A) : M A := fun w => (Ok a, w).

Definition bind {A B} (m : M A) (k : A -> M B) : M B :=
  fun w =>
    match m w with
    | (Ok a, w') => k a w'
    | (Raise e, w') => (Raise e, w')
    end.

Definition raise {A} (e : exn) : M A := fun w => (Raise e, w).

(** [try: m / except <h applies>: ...]: [h e = None] when the clause
    does not catch [e]. *)
Definition try_except {A} (m : M A) (h : exn -> option (M A)) : M A :=
  fun w =>
    match m w with
    | (Ok a, w') => (Ok a, w')
    | (Raise e, w') =>
        match h e with
        | Some k => k w'
        | None => (Raise e, w')
        end
    end.

Notation "x <- m ;; k" := (bind m (fun x => k))
  (at level 61, m at next level, right associativity).
Notation "m ;;; k" := (bind m (fun _ => k))
  (at level 61, right associativity).

(** The world after one more event. *)
Definition logged (w : world) (e : event) : world :=
  mkWorld (git_oracle w) (script_name w) (keys w) (log w ++ [e]).

Definition emit (e : event) : M unit := fun w => (Ok tt, logged w e).

Definition rprint (text : string) : M unit := emit (EvPrint text).

Definition clear_screen : M unit := emit EvClear.

Definition argv0 : M string := fun w => (Ok (script_name w), w).

(** [subprocess.run(argv, capture_output=True, text=True, check=True)
    .stdout] *)
Definition subprocess_run (argv : list string) : M string :=
  fun w =>
    let w' := logged w (EvGit argv) in
    match git_oracle w (git_cmds (log w)) argv with
    | Exited0 out => (Ok out, w')
    | ExitedNonZero err => (Raise (CalledProcessError err), w')
    | NotStarted => (Raise OSError, w')
    end.

(** [prompt([q])[name]]: the next answer is consumed; an answer that
    does not fit the question, or none at all, is an aborted prompt. *)
Definition prompt (q : question) : M string :=
  fun w =>
    let w' rest := mkWorld (git_oracle w) (script_name w) rest
                           (log w ++ [EvPrompt q]) in
    match keys w with
    | [] => (Raise TypeError, w' [])
    | a :: rest =>
        match q, a with
        | QList _ _ choices, Pick n =>
            match nth_error choices n with
            | Some c => (Ok c, w' rest)
            | None => (Raise TypeError, w' rest)
            end
        | QText _ _, Typed s => (Ok s, w' rest)
        | _, _ => (Raise TypeError, w' rest)
        end
    end.

Definition get_option (config : GitConfig.t) (key : string) : M string :=
  match GitConfig.get_option key config with
  | Some v => ret v
  | None => raise (KeyError key)
  end.

Fixpoint mapM {A B} (f : A -> M B) (l : list A) : M (list B) :=
  match l with
  | [] => ret []
  | x :: l' => y <- f x ;; ys <- mapM f l' ;; ret (y :: ys)
  end.

Fixpoint forM_ {A} (l : list A) (f : A -> M unit) : M unit :=
  match l with
  | [] => ret tt
  | x :: l' => f x ;;; forM_ l' f
  end.

(* ================================================================== *)
(** ** The script *)
(* ================================================================== *)

(** The newline and the double quote of the Python string literals. *)
Definition nl : string := String (ascii_of_nat 10) EmptyString.
Definition dquote : string := String (ascii_of_nat 34) EmptyString.

(** The mark at the head of the success message.  The literal of the
    source holds the three characters U+00E2, U+0153 and U+201C, of
    which the last two lie outside the range of the strings of this
    model; the mark is kept as the seven bytes of their UTF-8
    encoding, and no property below says what it is. *)
Definition check_mark : string :=
  String (ascii_of_nat 195) (String (ascii_of_nat 162)
    (String (ascii_of_nat 197) (String (ascii_of_nat 147)
      (String (ascii_of_nat 226) (String (ascii_of_nat 128)
        (String (ascii_of_nat 156) EmptyString)))))).

Definition execute_git_command (command : list string) : M (bool * string) :=
  try_except
    (out <- subprocess_run command ;; ret (true, PyStr.strip out))
    (fun e =>
       match e with
       | CalledProcessError err => Some (ret (false, PyStr.strip err))
       | _ => None
       end).

Definition get_current_branch : M string :=
  r <- execute_git_command ["git"; "branch"; "--show-current"] ;;
  let '(success, output) := r in
  ret (if success then output else "").

(** The body of the [for] loop of [get_remote_branches], over the lines
    still to be read. *)
Fixpoint clean_branches (lines : list string) : list string :=
  match lines with
  | [] => []
  | branch :: rest =>
      let branch := PyStr.strip branch in
      if PyStr.truthy branch && negb (PyStr.startswith "origin/HEAD" branch)
      then PyStr.replace "origin/" "" (Some 1) branch :: clean_branches rest
      else clean_branches rest
  end.

(** [sorted(l)] on strings: the order is that of the code points. *)
Fixpoint insert_sorted (x : string) (l : list string) : list string :=
  match l with
  | [] => [x]
  | y :: l' => if String.leb x y then x :: l else y :: insert_sorted x l'
  end.

Fixpoint sorted (l : list string) : list string :=
  match l with
  | [] => []
  | x :: l' => insert_sorted x (sorted l')
  end.

Definition parse_remote_branches (output : string) : list string :=
  sorted (clean_branches (PyStr.split nl output)).

Definition get_remote_branches : M (list string) :=
  r <- execute_git_command ["git"; "branch"; "-r"] ;;
  let '(success, output) := r in
  if negb success then ret []
  else ret (parse_remote_branches output).

Definition menu_options : list (string * string) :=
  [ ("Source Branch (current)", "source_branch");
    ("Target Branch", "target_branch");
    ("Commit Message", "commit_message");
    ("PR Title", "pr_title");
    ("PR Description", "pr_description") ].

Definition get_menu_choices (config : GitConfig.t) : M string :=
  emit (EvMenu config) ;;;
  clear_screen ;;;
  let max_length :=
    list_max (map (fun option => String.length (fst option)) menu_options)
    + 2 in
  choices <- mapM (fun option =>
                     let '(display, key) := option in
                     v <- get_option config key ;;
                     ret (PyStr.ljust max_length display ++ " : [" ++ v ++ "]"))
                  menu_options ;;
  let choices := (choices ++ ["Review and Create PR"; "Exit"])%list in
  prompt (QList "action" "Select action" choices).

Definition handle_branch_choice (current_branch : string) : M string :=
  clear_screen ;;;
  available_branches <- get_remote_branches ;;
  let valid_branches :=
    filter (fun branch => is_valid_target_branch current_branch branch)
           available_branches in
  match valid_branches with
  | [] => rprint "[bold red]No valid target branches found![/]" ;;; ret ""
  | _ => prompt (QList "branch" "Select target branch" valid_branches)
  end.

Definition handle_text_input (message key : string) : M string :=
  clear_screen ;;;
  prompt (QText key message).

(** The list comprehension [command_parts] of [review_config]. *)
Definition command_parts (config : GitConfig.t) : list string :=
  map (fun item =>
         "--" ++ PyStr.replace "_" "-" None (fst item)
         ++ " " ++ dquote ++ snd item ++ dquote)
      (filter (fun item => PyStr.truthy (snd item)) config).

Definition review_command (script : string) (config : GitConfig.t) : string :=
  "python " ++ script ++ " " ++ PyStr.join " " (command_parts config)
  ++ " --no-interactive".

Definition review_config (config : GitConfig.t) : M bool :=
  clear_screen ;;;
  rprint "[bold]Current configuration:[/]" ;;;
  forM_ config (fun item =>
    rprint ("[cyan]" ++ fst item ++ ":[/] [green]" ++ snd item ++ "[/]")) ;;;
  script <- argv0 ;;
  let command := review_command script config in
  rprint (nl ++ "[yellow]Non-interactive command:[/]") ;;;
  rprint ("[green]" ++ command ++ "[/]") ;;;
  confirm <- prompt (QList "confirm" "Is this configuration correct?"
                           ["Yes, create PR"; "No, return to menu"]) ;;
  ret (PyStr.startswith "Yes" confirm).

Definition get_bitbucket_url : M string :=
  r <- execute_git_command ["git"; "config"; "--get"; "remote.origin.url"] ;;
  let '(success, output) := r in
  if negb success then ret ""
  else ret (PyStr.strip output).

(** Lines 202-205 of [create_pr]: the SSH address is turned into an
    HTTPS one, and then a final [.git] is removed. *)
Definition ssh_to_https (repo_url : string) : string :=
  if PyStr.startswith "git@" repo_url
  then PyStr.replace "git@" "https://" None
         (PyStr.replace ":" "/" None repo_url)
  else repo_url.

Definition strip_dot_git (repo_url : string) : string :=
  if PyStr.endswith ".git" repo_url then PyStr.drop_last 4 repo_url
  else repo_url.

Definition web_url (repo_url : string) : string :=
  strip_dot_git (ssh_to_https repo_url).

(** The four commands of the executor, in the order of the source. *)
Definition git_add : list string := ["git"; "add"; "."].
Definition git_commit (message : string) : list string :=
  ["git"; "commit"; "-m"; message].
Definition git_push (branch : string) : list string :=
  ["git"; "push"; "origin"; branch].
Definition git_get_url : list string :=
  ["git"; "config"; "--get"; "remote.origin.url"].

Definition create_pr (config : GitConfig.t) : M unit :=
  emit (EvExecutor config) ;;;
  (* Stage all changes *)
  r <- execute_git_command ["git"; "add"; "."] ;;
  let '(success, output) := r in
  if negb success then
    rprint ("[bold red]Error staging changes: " ++ output ++ "[/]")
  else
  (* Create commit *)
  message <- get_option config "commit_message" ;;
  r <- execute_git_command ["git"; "commit"; "-m"; message] ;;
  let '(success, output) := r in
  if negb success then
    rprint ("[bold red]Error creating commit: " ++ output ++ "[/]")
  else
  (* Push changes *)
  current_branch <- get_option config "source_branch" ;;
  r <- execute_git_command ["git"; "push"; "origin"; current_branch] ;;
  let '(success, output) := r in
  if negb success then
    rprint ("[bold red]Error pushing changes: " ++ output ++ "[/]")
  else
  (* Get Bitbucket URL and print PR creation instructions *)
  repo_url <- get_bitbucket_url ;;
  if PyStr.truthy repo_url then
    let repo_url := web_url repo_url in
    rprint ("[bold green]" ++ check_mark ++ "[/] Changes pushed successfully!") ;;;
    rprint "[yellow]Please create a pull request in Bitbucket:[/]" ;;;
    rprint ("URL: " ++ repo_url ++ "/pull-requests/new") ;;;
    rprint (nl ++ "[bold]Pull Request details:[/]") ;;;
    v <- get_option config "source_branch" ;;
    rprint ("Source branch: " ++ v) ;;;
    v <- get_option config "target_branch" ;;
    rprint ("Target branch: " ++ v) ;;;
    v <- get_option config "pr_title" ;;
    rprint ("Title: " ++ v) ;;;
    v <- get_option config "pr_description" ;;
    rprint ("Description: " ++ v)
  else
    rprint "[bold red]Could not determine repository URL[/]".

(** [if x: config.update_option(key, x)] on an [Optional[str]]
    parameter [x]. *)
Definition set_if_given (key : string) (x : option string)
           (config : GitConfig.t) : GitConfig.t :=
  match x with
  | Some s => if PyStr.truthy s then GitConfig.update_option key s config
              else config
  | None => config
  end.

Definition option_mapping : list (string * (string * string)) :=
  [ ("Target Branch", ("target_branch", "Select target branch"));
    ("Commit Message", ("commit_message", "Enter commit message"));
    ("PR Title", ("pr_title", "Enter PR title"));
    ("PR Description", ("pr_description", "Enter PR description")) ].

Fixpoint lookup {V} (key : string) (d : list (string * V)) : option V :=
  match d with
  | [] => None
  | (k, v) :: d' => if (k =? key)%string then Some v else lookup key d'
  end.

(** The [while True] loop of [main].  [fuel] bounds the number of turns
    in the model; [OutOfFuel] is raised when it is used up. *)
Fixpoint menu_loop (fuel : nat) (config : GitConfig.t)
         (current_branch : string) : M unit :=
  match fuel with
  | O => raise OutOfFuel
  | S fuel' =>
      choice <- get_menu_choices config ;;
      let action := PyStr.strip (hd "" (PyStr.split " : [" choice)) in
      match lookup action option_mapping with
      | Some (key, message) =>
          value <- (if PyStr.contains "branch" key
                    then handle_branch_choice current_branch
                    else handle_text_input message key) ;;
          menu_loop fuel' (GitConfig.update_option key value config)
                    current_branch
      | None =>
          if (action =? "Review and Create PR")%string then
            confirmed <- review_config config ;;
            if confirmed then create_pr config
            else menu_loop fuel' config current_branch
          else ret tt   (* Exit *)
      end
  end.

(** Every turn of the loop asks at least one question, so one turn
    more than there are answers left is never used up. *)
Definition turns_left : M nat := fun w => (Ok (S (List.length (keys w))), w).

Definition main (target_branch commit_message pr_title pr_description
                 : option string) (interactive : bool) : M unit :=
  let config := GitConfig.init in
  current_branch <- get_current_branch ;;
  if negb (PyStr.truthy current_branch) then
    rprint "[bold red]Error: Could not determine current branch[/]"
  else
  (* Set source branch as current branch *)
  let config := GitConfig.update_option "source_branch" current_branch config in
  if negb interactive then
    (* Use command line parameters *)
    let config := set_if_given "target_branch" target_branch config in
    let config := set_if_given "commit_message" commit_message config in
    let config := set_if_given "pr_title" pr_title config in
    let config := set_if_given "pr_description" pr_description config in
    create_pr config
  else
  (* Interactive mode *)
  fuel <- turns_left ;;
  menu_loop fuel config current_branch.

(* ================================================================== *)
(** ** The command-line interface *)
(* ================================================================== *)

(** The options that the decorators of [main] declare, and what the
    parser does with a vector of words in which every option and its
    value are separate words (the form that [review_config] prints): an
    option that was not declared is refused. *)
Inductive cli_option : Type :=
| TargetBranch | CommitMessage | PrTitle | PrDescription
| Interactive | NoInteractive.

Definition cli_options : list (string * cli_option) :=
  [ ("--target-branch", TargetBranch);
    ("--commit-message", CommitMessage);
    ("--pr-title", PrTitle);
    ("--pr-description", PrDescription);
    ("--interactive", Interactive);
    ("--no-interactive", NoInteractive) ].

Record cli_args : Type := mkArgs {
  arg_target_branch : option string;
  arg_commit_message : option string;
  arg_pr_title : option string;
  arg_pr_description : option string;
  arg_interactive : bool
}.

Definition default_args : cli_args := mkArgs None None None None true.

Inductive parsed : Type :=
| Accepted (a : cli_args)
| NoSuchOption (name : string)
| MissingValue (name : string)
| UnexpectedArgument (word : string)
| HelpShown.

Definition takes_value (o : cli_option) : bool :=
  match o with
  | Interactive | NoInteractive => false
  | _ => true
  end.

Definition store (o : cli_option) (v : string) (a : cli_args) : cli_args :=
  match o with
  | TargetBranch =>
      mkArgs (Some v) (arg_commit_message a) (arg_pr_title a)
             (arg_pr_description a) (arg_interactive a)
  | CommitMessage =>
      mkArgs (arg_target_branch a) (Some v) (arg_pr_title a)
             (arg_pr_description a) (arg_interactive a)
  | PrTitle =>
      mkArgs (arg_target_branch a) (arg_commit_message a) (Some v)
             (arg_pr_description a) (arg_interactive a)
  | PrDescription =>
      mkArgs (arg_target_branch a) (arg_commit_message a) (arg_pr_title a)
             (Some v) (arg_interactive a)
  | Interactive =>
      mkArgs (arg_target_branch a) (arg_commit_message a) (arg_pr_title a)
             (arg_pr_description a) true
  | NoInteractive =>
      mkArgs (arg_target_branch a) (arg_commit_message a) (arg_pr_title a)
             (arg_pr_description a) false
  end.

Fixpoint parse_args (argv : list string) (a : cli_args) : parsed :=
  match argv with
  | [] => Accepted a
  | word :: rest =>
      if PyStr.startswith "-" word then
        match lookup word cli_options with
        | Some o =>
            if takes_value o then
              match rest with
              | v :: rest' => parse_args rest' (store o v a)
              | [] => MissingValue word
              end
            else parse_args rest (store o "" a)
        | None =>
            if (word =? "--help")%string then HelpShown
            else NoSuchOption word
        end
      else UnexpectedArgument word
  end.

(** The entry point [main()] under the decorators: [main] runs only on
    an accepted command line; a refused one ends the program with exit
    status 2 after the usage message, and [--help] with status 0. *)
Definition cli (argv : list string) : M unit :=
  match parse_args argv default_args with
  | Accepted a =>
      main (arg_target_branch a) (arg_commit_message a) (arg_pr_title a)
           (arg_pr_description a) (arg_interactive a)
  | HelpShown => raise (SystemExit 0)
  | _ => raise (SystemExit 2)
  end.

(** Running a computation from a world, and what it adds to the log. *)
Definition outcome_of {A} (m : M A) (w : world) : result A := fst (m w).
Definition world_after {A} (m : M A) (w : world) : world := snd (m w).
Definition emitted {A} (m : M A) (w : world) : list event :=
  skipn (List.length (log w)) (log (world_after m w)).

(* ================================================================== *)
(** ** Vocabulary of the specification *)
(* ================================================================== *)

Fixpoint all_chars (f : ascii -> bool) (s : string) : bool :=
  match s with
  | EmptyString => true
  | String a s' => f a && all_chars f s'
  end.

Fixpoint take_while (f : ascii -> bool) (s : string) : string :=
  match s with
  | EmptyString => EmptyString
  | String a s' => if f a then String a (take_while f s') else EmptyString
  end.

Fixpoint drop_while (f : ascii -> bool) (s : string) : string :=
  match s with
  | EmptyString => EmptyString
  | String a s' => if f a then drop_while f s' else s
  end.

Definition is_lower : ascii -> bool := Re.class_mem Re.LowerAZ.
Definition is_digit : ascii -> bool := Re.class_mem Re.Digit.

(** [s] is environment-shaped with letter prefix [prefix]: it begins
    with the lowercase letters [prefix], at least one, directly followed
    by at least one digit. *)
Definition letters_then_digits (s prefix : string) : Prop :=
  exists digits rest,
    s = prefix ++ digits ++ rest
    /\ prefix <> "" /\ all_chars is_lower prefix = true
    /\ digits <> "" /\ all_chars is_digit digits = true.

Definition environment_shaped (s : string) : Prop :=
  exists prefix, letters_then_digits s prefix.

(** The pattern [<lowercase-letters><digits>] in the words of the
    specification, as a description of the whole name: lowercase
    letters, at least one, and then digits, at least one, to the
    end. *)
Definition environment_name (s : string) : bool :=
  match take_while is_lower s, drop_while is_lower s with
  | String _ _, String c r => all_chars is_digit (String c r)
  | _, _ => false
  end.

(** What the pattern [([a-z]+)(\d+)] extracts, computed directly. *)
Definition env_groups (s : string) : option (list string) :=
  match take_while is_lower s with
  | EmptyString => None
  | p =>
      match take_while is_digit (drop_while is_lower s) with
      | EmptyString => None
      | d => Some [p; d]
      end
  end.

Fixpoint map_chars (f : ascii -> ascii) (s : string) : string :=
  match s with
  | EmptyString => EmptyString
  | String a s' => String (f a) (map_chars f s')
  end.

Definition colon_to_slash (a : ascii) : ascii :=
  if Ascii.eqb a ":" then "/"%char else a.

(** The normalisation in the words of the specification: the [git@]
    prefix is replaced by [https://] and the colon that follows it,
    the first one, becomes a slash; a final [.git] is removed. *)
Definition spec_web_url (repo_url : string) : string :=
  strip_dot_git
    (if PyStr.startswith "git@" repo_url
     then "https://"
          ++ PyStr.replace ":" "/" (Some 1)
               (String.substring 4 (String.length repo_url - 4) repo_url)
     else repo_url).

(** The order of [sorted] on strings. *)
Definition str_le (x y : string) : Prop := String.leb x y = true.

(** The test of the loop of [get_remote_branches] on a raw line. *)
Definition kept_line (line : string) : bool :=
  PyStr.truthy (PyStr.strip line)
  && negb (PyStr.startswith "origin/HEAD" (PyStr.strip line)).

(** The parsing in the words of the specification: one trimmed name
    per line, every line that refers to a [HEAD] pointer discarded, a
    leading [origin/] stripped, the names sorted. *)
Definition spec_strip_origin (name : string) : string :=
  if PyStr.startswith "origin/" name
  then String.substring 7 (String.length name - 7) name
  else name.

Definition spec_remote_branches (output : string) : list string :=
  sorted
    (map spec_strip_origin
       (filter (fun line => PyStr.truthy line
                            && negb (PyStr.contains "/HEAD" line))
               (map PyStr.strip (PyStr.split nl output)))).

(** A world for examples: the n-th git command ends as the n-th entry
    of [responses] says, and [answers] are typed at the prompts. *)
Definition scripted_world (responses : list proc_result)
           (answers : list answer) : world :=
  mkWorld (fun history _ => nth (List.length history) responses NotStarted)
          "script.py" answers [].

Definition git_branch_r : list string := ["git"; "branch"; "-r"].
Definition git_show_current : list string :=
  ["git"; "branch"; "--show-current"].

(** How the next run of [argv] ends in the world [w]. *)
Definition next_result (w : world) (argv : list string) : proc_result :=
  git_oracle w (git_cmds (log w)) argv.

(** ** Vocabulary for the executor *)

Definition field (config : GitConfig.t) (key : string) : string :=
  match GitConfig.get_option key config with
  | Some v => v
  | None => ""
  end.

(** The configuration holds the five fields, as every configuration
    made by [GitConfig()] and [update_option] on those fields does. *)
Definition has_fields (config : GitConfig.t) : bool :=
  forallb (fun key =>
             match GitConfig.get_option key config with
             | Some _ => true
             | None => false
             end)
          GitConfig.fields.

(** The git commands of the executor: stage, commit, push, read the
    address of the remote. *)
Definition executor_steps (config : GitConfig.t) : list (list string) :=
  [ git_add; git_commit (field config "commit_message");
    git_push (field config "source_branch"); git_get_url ].

(** How step [i] ends when the steps before it have run in [w]. *)
Definition step_result (w : world) (config : GitConfig.t) (i : nat)
  : proc_result :=
  git_oracle w (git_cmds (log w) ++ firstn i (executor_steps config))
             (nth i (executor_steps config) []).

(** The error message that belongs to step [i]. *)
Definition error_label (i : nat) (err : string) : string :=
  match i with
  | 0 => "[bold red]Error staging changes: " ++ err ++ "[/]"
  | 1 => "[bold red]Error creating commit: " ++ err ++ "[/]"
  | 2 => "[bold red]Error pushing changes: " ++ err ++ "[/]"
  | _ => "[bold red]Could not determine repository URL[/]"
  end.

Definition success_report (config : GitConfig.t) (repo_url : string)
  : list event :=
  [ EvPrint ("[bold green]" ++ check_mark ++ "[/] Changes pushed successfully!");
    EvPrint "[yellow]Please create a pull request in Bitbucket:[/]";
    EvPrint ("URL: " ++ web_url repo_url ++ "/pull-requests/new");
    EvPrint (nl ++ "[bold]Pull Request details:[/]");
    EvPrint ("Source branch: " ++ field config "source_branch");
    EvPrint ("Target branch: " ++ field config "target_branch");
    EvPrint ("Title: " ++ field config "pr_title");
    EvPrint ("Description: " ++ field config "pr_description") ].

(** What the executor does, read off the results of its four steps. *)
Definition executor_run (config : GitConfig.t) (r0 r1 r2 r3 : proc_result)
  : result unit * list event :=
  let s := executor_steps config in
  let git i := EvGit (nth i s []) in
  let failed i err := EvPrint (error_label i (PyStr.strip err)) in
  match r0 with
  | NotStarted => (Raise OSError, [git 0])
  | ExitedNonZero err => (Ok tt, [git 0; failed 0 err])
  | Exited0 _ =>
  match r1 with
  | NotStarted => (Raise OSError, [git 0; git 1])
  | ExitedNonZero err => (Ok tt, [git 0; git 1; failed 1 err])
  | Exited0 _ =>
  match r2 with
  | NotStarted => (Raise OSError, [git 0; git 1; git 2])
  | ExitedNonZero err => (Ok tt, [git 0; git 1; git 2; failed 2 err])
  | Exited0 _ =>
  match r3 with
  | NotStarted => (Raise OSError, [git 0; git 1; git 2; git 3])
  | ExitedNonZero err => (Ok tt, [git 0; git 1; git 2; git 3; failed 3 err])
  | Exited0 out =>
      if PyStr.truthy (PyStr.strip (PyStr.strip out))
      then (Ok tt,
            [git 0; git 1; git 2; git 3]
              ++ success_report config (PyStr.strip (PyStr.strip out)))%list
      else (Ok tt, [git 0; git 1; git 2; git 3; failed 3 ""])
  end end end end.

(** The world after the events [evs]. *)
Definition logged_all (w : world) (evs : list event) : world :=
  mkWorld (git_oracle w) (script_name w) (keys w) (log w ++ evs).


(** A configuration and two worlds for examples. *)
Definition example_config : GitConfig.t :=
  GitConfig.update_option "commit_message" "fix"
    (GitConfig.update_option "source_branch" "dev1" GitConfig.init).



(** ** Vocabulary for traces *)

(** Every event that [m] adds to the log satisfies [ok]. *)
Definition emits {A} (ok : event -> Prop) (m : M A) : Prop :=
  forall w, exists evs,
    log (world_after m w) = (log w ++ evs)%list /\ Forall ok evs.

(** The ghost events of [e] carry a configuration whose source branch
    is [b]. *)
Definition source_is (b : string) (e : event) : Prop :=
  match e with
  | EvMenu config | EvExecutor config => field config "source_branch" = b
  | _ => True
  end.

(** [e] is the entry of the menu or of the executor with [config]. *)
Definition enters (e : event) (config : GitConfig.t) : Prop :=
  e = EvMenu config \/ e = EvExecutor config.

Definition no_branch_error : string :=
  "[bold red]Error: Could not determine current branch[/]".

(** The world in which git cannot be started. *)
Definition no_git : world := scripted_world [] [].

(** The part of [main] that follows the check of the current branch
    [b]: lines 236-277. *)
Definition main_with_branch (b : string)
           (target_branch commit_message pr_title pr_description
            : option string) (interactive : bool) : M unit :=
  let config := GitConfig.update_option "source_branch" b GitConfig.init in
  if negb interactive then
    create_pr
      (set_if_given "pr_description" pr_description
         (set_if_given "pr_title" pr_title
            (set_if_given "commit_message" commit_message
               (set_if_given "target_branch" target_branch config))))
  else fuel <- turns_left ;; menu_loop fuel config b.

(** The configuration bound by [--no-interactive --commit-message fix]
    on the branch [b]. *)
Definition fix_config (b : string) : GitConfig.t :=
  [ ("source_branch", b); ("target_branch", ""); ("commit_message", "fix");
    ("pr_title", ""); ("pr_description", "") ].

Definition on_dev1 : world := scripted_world [Exited0 "dev1"] [Pick 6].

(** What [review_config] adds to the log when the script is [script]. *)
Definition confirm_question : question :=
  QList "confirm" "Is this configuration correct?"
        ["Yes, create PR"; "No, return to menu"].

Definition review_events (script : string) (config : GitConfig.t)
  : list event :=
  ([EvClear; EvPrint "[bold]Current configuration:[/]"]
   ++ map (fun item =>
             EvPrint ("[cyan]" ++ fst item ++ ":[/] [green]" ++ snd item
                      ++ "[/]"))
          config
   ++ [ EvPrint (nl ++ "[yellow]Non-interactive command:[/]");
        EvPrint ("[green]" ++ review_command script config ++ "[/]");
        EvPrompt confirm_question ])%list.

(** The flag that the review step prints for the source branch [v]. *)
Definition source_branch_flag (v : string) : string :=
  "--source-branch " ++ dquote ++ v ++ dquote.

(** ** Vocabulary for the bound on the loop *)

(** [m] reads answers but never puts any back, and it does not run
    out of fuel. *)
Definition thrifty {A} (m : M A) : Prop :=
  forall w,
    List.length (keys (world_after m w)) <= List.length (keys w)
    /\ outcome_of m w <> Raise OutOfFuel.

(** [m] is thrifty, and reads at least one answer when it returns. *)
Definition consuming {A} (m : M A) : Prop :=
  forall w,
    (List.length (keys (world_after m w)) <= List.length (keys w)
     /\ outcome_of m w <> Raise OutOfFuel)
    /\ forall a, outcome_of m w = Ok a ->
                 List.length (keys (world_after m w)) < List.length (keys w).

(* ================================================================== *)
(** ** Vocabulary for further properties *)
(* ================================================================== *)

Fixpoint last_char (s : string) : option ascii :=
  match s with
  | EmptyString => None
  | String c EmptyString => Some c
  | String _ s' => last_char s'
  end.

Definition first_char (s : string) : option ascii :=
  match s with
  | EmptyString => None
  | String c _ => Some c
  end.

Definition not_space (c : option ascii) : bool :=
  match c with
  | Some a => negb (PyStr.is_space a)
  | None => true
  end.

(** [s] neither begins nor ends with white space. *)
Definition trimmed (s : string) : bool :=
  not_space (first_char s) && not_space (last_char s).

(** [s] names a recognised environment: it is environment-shaped and
    its letter prefix is entry [i] of the order table. *)
Definition recognised (s : string) (i : nat) : Prop :=
  exists prefix,
    letters_then_digits s prefix /\ PyStr.index prefix env_order = Some i.

(** The world [w] after [k] answers have been read and the events
    [evs] have happened. *)
Definition advance (w : world) (k : nat) (evs : list event) : world :=
  mkWorld (git_oracle w) (script_name w) (skipn k (keys w)) (log w ++ evs).

(** The rows of the menu for [config], as [get_menu_choices] renders
    them: each label is padded to 25 characters, the length of the
    longest label plus two. *)
Definition menu_row (config : GitConfig.t) (option : string * string)
  : string :=
  PyStr.ljust 25 (fst option) ++ " : [" ++ field config (snd option) ++ "]".

Definition menu_rows (config : GitConfig.t) : list string :=
  (map (menu_row config) menu_options
   ++ ["Review and Create PR"; "Exit"])%list.

Definition menu_question (config : GitConfig.t) : question :=
  QList "action" "Select action" (menu_rows config).

Definition menu_events (config : GitConfig.t) : list event :=
  [EvMenu config; EvClear; EvPrompt (menu_question config)].

(** Line 263 of [main]: the action that a chosen row stands for. *)
Definition action_of (choice : string) : string :=
  PyStr.strip (hd "" (PyStr.split " : [" choice)).

(** The rows of the menu that ask for a text, with the field they fill
    and the message of the prompt. *)
Definition text_rows : list (nat * (string * string)) :=
  [ (2, ("commit_message", "Enter commit message"));
    (3, ("pr_title", "Enter PR title"));
    (4, ("pr_description", "Enter PR description")) ].

Definition no_target_error : string :=
  "[bold red]No valid target branches found![/]".

(** The value of an option of the command line as a field: an option
    that was not given is the empty string. *)
Definition given_or_empty (x : option string) : string :=
  match x with
  | Some s => s
  | None => ""
  end.

(** The exceptions of [m] all satisfy [allowed]. *)
Definition escapes {A} (allowed : exn -> Prop) (m : M A) : Prop :=
  forall w e, outcome_of m w = Raise e -> allowed e.

(** The exceptions that would be faults of the script itself: a field
    missing from the configuration, and the error exit of a git
    command that nobody caught. *)
Definition fault_of_script (e : exn) : Prop :=
  (exists key, e = KeyError key) \/ (exists err, e = CalledProcessError err).

(** Events of the menu that change nothing in the repository: the only
    git command among them is the listing of the remote branches, and
    the executor is not entered. *)
Definition quiet (e : event) : Prop :=
  match e with
  | EvGit argv => argv = git_branch_r
  | EvExecutor _ => False
  | _ => True
  end.

(** Events of the executor once it has been entered: git commands and
    messages, and nothing else. *)
Definition of_executor (e : event) : Prop :=
  match e with
  | EvGit _ | EvPrint _ => True
  | _ => False
  end.

(** How often the executor is entered in a trace. *)
Fixpoint executor_entries (l : list event) : nat :=
  match l with
  | [] => 0
  | EvExecutor _ :: l' => S (executor_entries l')
  | _ :: l' => executor_entries l'
  end.

(** A trace in which the executor is entered at most once, and only
    directly after the question of the review step: either all of it
    is quiet, or it is a quiet part that ends with that question, the
    entry of the executor, and then events of the executor only, so
    that no second entry, no menu and no prompt follows. *)
Definition guarded (evs : list event) : Prop :=
  Forall quiet evs
  \/ exists before config rest,
       evs = (before ++ EvPrompt confirm_question
                     :: EvExecutor config :: rest)%list
       /\ Forall quiet before
       /\ Forall of_executor rest.

Definition guards {A} (m : M A) : Prop :=
  forall w, exists evs,
    log (world_after m w) = (log w ++ evs)%list /\ guarded evs.

(* ================================================================== *)
(** * Properties *)
(* ================================================================== *)

(** ** Strings *)

Lemma append_empty_r (s : string) : s ++ "" = s.
Proof. induction s as [|a s IH]; simpl; [reflexivity | now rewrite IH]. Qed.

Lemma append_assoc (a b c : string) : (a ++ b) ++ c = a ++ (b ++ c).
Proof. induction a as [|x a IH]; simpl; [reflexivity | now rewrite IH]. Qed.

Lemma take_drop_while (f : ascii -> bool) (s : string) :
  take_while f s ++ drop_while f s = s.
Proof.
  induction s as [|a s IH]; simpl; [reflexivity|].
  destruct (f a); simpl; [now rewrite IH | reflexivity].
Qed.

Lemma take_while_all (f : ascii -> bool) (s : string) :
  all_chars f (take_while f s) = true.
Proof.
  induction s as [|a s IH]; simpl; [reflexivity|].
  destruct (f a) eqn:E; simpl; [now rewrite E | reflexivity].
Qed.

(** The head of a string stops a run of [f]. *)
Definition stops (f : ascii -> bool) (r : string) : Prop :=
  match r with
  | EmptyString => True
  | String a _ => f a = false
  end.

Lemma span_app (f : ascii -> bool) (p r : string) :
  all_chars f p = true -> stops f r ->
  take_while f (p ++ r) = p /\ drop_while f (p ++ r) = r.
Proof.
  induction p as [|a p IH]; simpl; intros Hp Hr.
  - destruct r as [|b r]; simpl in *; [now split|].
    rewrite Hr. now split.
  - apply andb_true_iff in Hp as [Ha Hp]. rewrite Ha.
    destruct (IH Hp Hr) as [-> ->]. now split.
Qed.

Lemma take_while_app_nonempty (f : ascii -> bool) (d r : string) :
  d <> "" -> all_chars f d = true -> take_while f (d ++ r) <> "".
Proof.
  destruct d as [|a d]; [congruence|]; simpl; intros _ H.
  apply andb_true_iff in H as [-> _]. discriminate.
Qed.

Lemma digit_not_lower (a : ascii) : is_digit a = true -> is_lower a = false.
Proof.
  unfold is_digit, is_lower, Re.class_mem. intros H.
  apply andb_true_iff in H as [_ H]. apply Nat.leb_le in H.
  apply andb_false_iff. left. apply Nat.leb_gt. lia.
Qed.

Lemma lower_not_digit (a : ascii) : is_lower a = true -> is_digit a = false.
Proof.
  intros H. destruct (is_digit a) eqn:E; [|reflexivity].
  apply digit_not_lower in E. congruence.
Qed.

(** ** The backtracking matcher on [([a-z]+)(\d+)] *)

Lemma match_digits (s : string) :
  Re.match_plus Re.Digit (Re.match_here []) s =
  match take_while is_digit s with
  | EmptyString => None
  | d => Some [d]
  end.
Proof.
  induction s as [|a s IH]; [reflexivity|].
  cbn [Re.match_plus take_while]. fold (is_digit a).
  destruct (is_digit a); [|reflexivity].
  rewrite IH. destruct (take_while is_digit s); reflexivity.
Qed.

Lemma match_digits_lower_head (a : ascii) (s : string) :
  is_lower a = true ->
  Re.match_plus Re.Digit (Re.match_here []) (String a s) = None.
Proof.
  intros H. cbn [Re.match_plus]. fold (is_digit a).
  now rewrite (lower_not_digit a H).
Qed.

Lemma re_match_env_groups (s : string) :
  Re.re_match env_pattern s = env_groups s.
Proof.
  unfold Re.re_match, env_pattern, env_groups.
  change (Re.match_here [Re.LowerAZ; Re.Digit] s) with
    (Re.match_plus Re.LowerAZ (Re.match_here [Re.Digit]) s).
  induction s as [|a s IH]; [reflexivity|].
  cbn [Re.match_plus take_while drop_while]. fold (is_lower a).
  destruct (is_lower a) eqn:Ha; [|reflexivity].
  rewrite IH.
  destruct (take_while is_lower s) as [|b p] eqn:Ep.
  - (* the run of letters ends here: the digits must follow *)
    assert (Hs : drop_while is_lower s = s).
    { rewrite <- (take_drop_while is_lower s) at 2. now rewrite Ep. }
    change (Re.match_here [Re.Digit] s) with
      (Re.match_plus Re.Digit (Re.match_here []) s).
    rewrite Hs, match_digits.
    destruct (take_while is_digit s); reflexivity.
  - destruct (take_while is_digit (drop_while is_lower s)) eqn:Ed;
      [|reflexivity].
    (* backtracking: giving back a letter never helps *)
    destruct s as [|c s']; [discriminate|].
    simpl in Ep. destruct (is_lower c) eqn:Hc; [|discriminate].
    change (Re.match_here [Re.Digit] (String c s')) with
      (Re.match_plus Re.Digit (Re.match_here []) (String c s')).
    now rewrite (match_digits_lower_head c s' Hc).
Qed.

Lemma env_groups_shape (s p : string) :
  letters_then_digits s p <-> exists d, env_groups s = Some [p; d].
Proof.
  unfold env_groups. split.
  - intros (d & r & -> & Hp & Hpl & Hd & Hdl).
    assert (Hstop : stops is_lower (d ++ r)).
    { destruct d as [|a d]; [congruence|]. simpl in *.
      apply andb_true_iff in Hdl as [Ha _]. now apply digit_not_lower. }
    destruct (span_app is_lower p (d ++ r) Hpl Hstop) as [-> ->].
    destruct p as [|a p]; [congruence|].
    pose proof (take_while_app_nonempty is_digit d r Hd Hdl) as Hne.
    destruct (take_while is_digit (d ++ r)) as [|b t]; [congruence|].
    now eexists.
  - intros [d H].
    pose proof (take_while_all is_lower s) as Hpl.
    pose proof (take_drop_while is_lower s) as Hs.
    pose proof (take_while_all is_digit (drop_while is_lower s)) as Hdl.
    pose proof (take_drop_while is_digit (drop_while is_lower s)) as Hr.
    destruct (take_while is_lower s) as [|a p'] eqn:Ep; [discriminate|].
    destruct (take_while is_digit (drop_while is_lower s)) as [|b d'] eqn:Ed;
      [discriminate|].
    injection H as <- <-.
    exists (String b d'), (drop_while is_digit (drop_while is_lower s)).
    rewrite Hr, Hs. repeat split; try discriminate; assumption.
Qed.

Lemma re_match_env_shape (s p : string) :
  letters_then_digits s p <->
  exists d, Re.re_match env_pattern s = Some [p; d].
Proof. rewrite re_match_env_groups. apply env_groups_shape. Qed.

Lemma re_match_env_none (s : string) :
  ~ environment_shaped s -> Re.re_match env_pattern s = None.
Proof.
  intros H. destruct (Re.re_match env_pattern s) as [gs|] eqn:E;
    [|reflexivity].
  exfalso. apply H. rewrite re_match_env_groups in E.
  unfold env_groups in E.
  destruct (take_while is_lower s) as [|a p] eqn:Ep; [discriminate|].
  destruct (take_while is_digit (drop_while is_lower s)) as [|b d] eqn:Ed;
    [discriminate|].
  exists (String a p). apply env_groups_shape. exists (String b d).
  unfold env_groups. now rewrite Ep, Ed.
Qed.

(** ** The validator *)

Lemma is_valid_on_shaped (source target ps pt : string) :
  letters_then_digits source ps -> letters_then_digits target pt ->
  is_valid_target_branch source target =
  match PyStr.index ps env_order, PyStr.index pt env_order with
  | Some i, Some j => i <? j
  | _, _ => true
  end.
Proof.
  intros Hs Ht.
  apply re_match_env_shape in Hs as [ds Hs].
  apply re_match_env_shape in Ht as [dt Ht].
  unfold is_valid_target_branch. rewrite Hs, Ht. unfold Re.group. simpl nth.
  destruct (PyStr.index ps env_order); [|reflexivity].
  destruct (PyStr.index pt env_order); reflexivity.
Qed.

(** C1.  For two environment-shaped branch names whose letter prefixes
    are both in the order table, [is_valid_target_branch] is true
    exactly when the target's index in the table is strictly greater
    than the source's; the four examples of the specification
    evaluate accordingly. *)
Theorem is_valid_target_branch_forward_only :
  (forall source target ps pt i j,
      letters_then_digits source ps ->
      letters_then_digits target pt ->
      PyStr.index ps env_order = Some i ->
      PyStr.index pt env_order = Some j ->
      (is_valid_target_branch source target = true <-> i < j))
  /\ is_valid_target_branch "sbx1" "dev2" = true
  /\ is_valid_target_branch "dev1" "sbx2" = false
  /\ is_valid_target_branch "dev1" "dev2" = false
  /\ is_valid_target_branch "uat1" "dev1" = false.
Proof.
  split; [|repeat split; reflexivity].
  intros source target ps pt i j Hs Ht Hi Hj.
  rewrite (is_valid_on_shaped source target ps pt Hs Ht), Hi, Hj.
  apply Nat.ltb_lt.
Qed.

Lemma letters_then_digits_example (p d : string) :
  p <> "" -> all_chars is_lower p = true ->
  d <> "" -> all_chars is_digit d = true ->
  letters_then_digits (p ++ d) p.
Proof.
  intros Hp Hpl Hd Hdl. exists d, "". rewrite append_empty_r.
  repeat split; assumption.
Qed.

Lemma is_valid_target_branch_forward_only_witness :
  is_valid_target_branch "dev7" "uat12" = true <-> 1 < 2.
Proof.
  apply (proj1 is_valid_target_branch_forward_only
               "dev7" "uat12" "dev" "uat" 1 2).
  - apply (letters_then_digits_example "dev" "7");
      [discriminate | reflexivity | discriminate | reflexivity].
  - apply (letters_then_digits_example "uat" "12");
      [discriminate | reflexivity | discriminate | reflexivity].
  - reflexivity.
  - reflexivity.
Defined.

(** C2, as the code has it.  When one of the two names does not begin
    with lowercase letters directly followed by a digit, or both do
    but one of the letter prefixes is not in the order table,
    [is_valid_target_branch] is true; so it is on the two examples.
    What follows the digits plays no part: [re.match] tests the start
    of the name only. *)
Theorem is_valid_target_branch_unconstrained :
  (forall source target,
      (~ environment_shaped source
       \/ ~ environment_shaped target
       \/ exists ps pt,
            letters_then_digits source ps /\ letters_then_digits target pt
            /\ (PyStr.index ps env_order = None
                \/ PyStr.index pt env_order = None)) ->
      is_valid_target_branch source target = true)
  /\ is_valid_target_branch "feature-x" "dev2" = true
  /\ is_valid_target_branch "qa1" "dev1" = true.
Proof.
  split; [|split; reflexivity].
  intros source target [H | [H | (ps & pt & Hs & Ht & H)]].
  - unfold is_valid_target_branch. now rewrite (re_match_env_none _ H).
  - unfold is_valid_target_branch. rewrite (re_match_env_none _ H).
    now destruct (Re.re_match env_pattern source).
  - rewrite (is_valid_on_shaped source target ps pt Hs Ht).
    destruct H as [-> | ->]; [reflexivity|].
    now destruct (PyStr.index ps env_order).
Qed.

Lemma feature_x_not_shaped : ~ environment_shaped "feature-x".
Proof.
  intros [p H]. apply re_match_env_shape in H as [d H]. discriminate.
Qed.

Lemma is_valid_target_branch_unconstrained_witness :
  is_valid_target_branch "feature-x" "sbx3" = true
  /\ is_valid_target_branch "uat1" "qa9" = true.
Proof.
  split.
  - apply (proj1 is_valid_target_branch_unconstrained "feature-x" "sbx3").
    left. exact feature_x_not_shaped.
  - apply (proj1 is_valid_target_branch_unconstrained "uat1" "qa9").
    right. right. exists "uat", "qa". split; [|split].
    + apply (letters_then_digits_example "uat" "1");
        [discriminate | reflexivity | discriminate | reflexivity].
    + apply (letters_then_digits_example "qa" "9");
        [discriminate | reflexivity | discriminate | reflexivity].
    + right. reflexivity.
Defined.

(** C2, counterexample to its wording: a name that goes on after the
    digits is not of the form [<lowercase-letters><digits>], and yet
    it is checked against the order table like the environment it
    begins with. *)
Lemma suffixed_name_is_still_checked :
  environment_name "sbx1-hotfix" = false
  /\ environment_name "uat1" = true
  /\ is_valid_target_branch "uat1" "sbx1-hotfix" = false.
Proof. repeat split; reflexivity. Qed.

(** ** Replacement and the web address *)

Lemma prefix_single (c a : ascii) (s : string) :
  String.prefix (String c "") (String a s) = Ascii.eqb a c.
Proof.
  simpl. destruct (ascii_dec c a) as [->|N].
  - rewrite Ascii.eqb_refl. now destruct s.
  - symmetry. apply Ascii.eqb_neq. congruence.
Qed.

(** Replacing every colon is a character-wise map. *)
Lemma replace_colon_map (s : string) :
  PyStr.replace ":" "/" None s = map_chars colon_to_slash s.
Proof.
  unfold PyStr.replace.
  induction s as [|a s IH]; [reflexivity|].
  cbn [PyStr.replace_from map_chars andb option_map].
  rewrite prefix_single. unfold colon_to_slash at 1.
  destruct (Ascii.eqb a ":"); cbn [append String.length Nat.sub];
    now rewrite IH.
Qed.

Lemma map_chars_app (f : ascii -> ascii) (a b : string) :
  map_chars f (a ++ b) = map_chars f a ++ map_chars f b.
Proof. induction a as [|x a IH]; simpl; [reflexivity | now rewrite IH]. Qed.

Lemma map_colon_absent (s : string) :
  PyStr.contains ":" s = false -> map_chars colon_to_slash s = s.
Proof.
  induction s as [|a s IH]; [reflexivity|].
  cbn [PyStr.contains map_chars]. rewrite prefix_single.
  intros H. apply orb_false_iff in H as [Ha Hs].
  rewrite (IH Hs). unfold colon_to_slash. now rewrite Ha.
Qed.

(** Nothing is replaced where [old] does not occur. *)
Lemma replace_from_absent (old new : string) (count : option nat) (s : string) :
  PyStr.contains old s = false -> PyStr.replace_from old new count 0 s = s.
Proof.
  induction s as [|a s IH]; [reflexivity|].
  cbn [PyStr.contains PyStr.replace_from]. intros H.
  apply orb_false_iff in H as [Hp Hs].
  rewrite Hp, andb_false_r. now rewrite IH.
Qed.

Lemma prefix_empty (s : string) : String.prefix "" s = true.
Proof. now destruct s. Qed.

Lemma prefix_app (p s : string) : String.prefix p (p ++ s) = true.
Proof.
  induction p as [|a p IH]; [apply prefix_empty|].
  simpl. now destruct (ascii_dec a a).
Qed.

Lemma replace_git_at_head (rest : string) :
  PyStr.contains "git@" rest = false ->
  PyStr.replace "git@" "https://" None ("git@" ++ rest) = "https://" ++ rest.
Proof.
  intros H. unfold PyStr.replace. cbn.
  now rewrite prefix_empty, (replace_from_absent "git@" "https://" None rest H).
Qed.

Lemma length_app (a b : string) :
  String.length (a ++ b) = String.length a + String.length b.
Proof. induction a as [|x a IH]; simpl; [reflexivity | now rewrite IH]. Qed.

Lemma substring_app_head (a b : string) :
  String.substring 0 (String.length a) (a ++ b) = a.
Proof.
  induction a as [|x a IH]; simpl; [now destruct b | now rewrite IH].
Qed.

Lemma drop_last_app (a b : string) :
  PyStr.drop_last (String.length b) (a ++ b) = a.
Proof.
  unfold PyStr.drop_last. rewrite length_app.
  replace (String.length a + String.length b - String.length b)
    with (String.length a) by lia.
  apply substring_app_head.
Qed.

Lemma endswith_app (a suf : string) : PyStr.endswith suf (a ++ suf) = true.
Proof.
  induction a as [|x a IH].
  - destruct suf; simpl; [reflexivity|].
    now rewrite Ascii.eqb_refl, String.eqb_refl.
  - cbn [append PyStr.endswith]. rewrite IH. apply orb_true_r.
Qed.

Lemma strip_dot_git_app (base : string) : strip_dot_git (base ++ ".git") = base.
Proof.
  unfold strip_dot_git. rewrite endswith_app.
  exact (drop_last_app base ".git").
Qed.

(** On an address [git@host:path] with no other colon and no other
    [git@], the rewriting is the one the specification describes. *)
Lemma ssh_to_https_plain (host path : string) :
  PyStr.contains ":" host = false ->
  PyStr.contains ":" path = false ->
  PyStr.contains "git@" (host ++ "/" ++ path) = false ->
  ssh_to_https ("git@" ++ host ++ ":" ++ path) = "https://" ++ host ++ "/" ++ path.
Proof.
  intros Hh Hp Hg. unfold ssh_to_https.
  unfold PyStr.startswith. rewrite prefix_app, replace_colon_map.
  change ("git@" ++ host ++ ":" ++ path)
    with ("git@" ++ (host ++ ":" ++ path)).
  rewrite map_chars_app, map_chars_app, map_chars_app.
  rewrite (map_colon_absent host Hh), (map_colon_absent path Hp).
  change (map_chars colon_to_slash "git@") with "git@".
  change (map_chars colon_to_slash ":") with "/".
  now apply replace_git_at_head.
Qed.

(** C3, as the code has it.  An address that begins with [git@] has
    every colon turned into a slash and then every [git@] into
    [https://]; on [git@host:path] with no other colon and no other
    [git@] that is [https://host/path].  Any other address is kept.
    Afterwards a final [.git] is removed.  The two examples of the
    specification evaluate as stated. *)
Theorem web_url_rewrites_every_colon :
  (forall u, web_url u = strip_dot_git (ssh_to_https u))
  /\ (forall u,
        PyStr.startswith "git@" u = true ->
        ssh_to_https u =
        PyStr.replace "git@" "https://" None (map_chars colon_to_slash u))
  /\ (forall host path,
        PyStr.contains ":" host = false ->
        PyStr.contains ":" path = false ->
        PyStr.contains "git@" (host ++ "/" ++ path) = false ->
        ssh_to_https ("git@" ++ host ++ ":" ++ path)
        = "https://" ++ host ++ "/" ++ path)
  /\ (forall u, PyStr.startswith "git@" u = false -> ssh_to_https u = u)
  /\ (forall base, strip_dot_git (base ++ ".git") = base)
  /\ (forall u, PyStr.endswith ".git" u = false -> strip_dot_git u = u)
  /\ web_url "git@example.com:team/repo.git" = "https://example.com/team/repo"
  /\ web_url "https://example.com/team/repo" = "https://example.com/team/repo".
Proof.
  split; [reflexivity|].
  split.
  { intros u H. unfold ssh_to_https. now rewrite H, replace_colon_map. }
  split; [exact ssh_to_https_plain|].
  split.
  { intros u H. unfold ssh_to_https. now rewrite H. }
  split; [exact strip_dot_git_app|].
  split.
  { intros u H. unfold strip_dot_git. now rewrite H. }
  split; reflexivity.
Qed.

Lemma web_url_rewrites_every_colon_witness :
  ssh_to_https "git@example.com:team/re:po.git"
  = PyStr.replace "git@" "https://" None
      (map_chars colon_to_slash "git@example.com:team/re:po.git")
  /\ ssh_to_https ("git@" ++ "example.com" ++ ":" ++ "team/repo.git")
     = "https://" ++ "example.com" ++ "/" ++ "team/repo.git"
  /\ ssh_to_https "https://example.com/team/repo.git"
     = "https://example.com/team/repo.git"
  /\ strip_dot_git "https://example.com/team/repo"
     = "https://example.com/team/repo".
Proof.
  destruct web_url_rewrites_every_colon
    as (_ & Hall & Hplain & Hother & _ & Hkeep & _).
  split; [|split; [|split]].
  - apply Hall. reflexivity.
  - apply Hplain; reflexivity.
  - apply Hother. reflexivity.
  - apply Hkeep. reflexivity.
Defined.

(** C3, counterexample to the wording of the specification: a second
    colon in the address is turned into a slash as well. *)
Lemma web_url_second_colon :
  web_url "git@example.com:team/re:po.git" = "https://example.com/team/re/po"
  /\ spec_web_url "git@example.com:team/re:po.git"
     = "https://example.com/team/re:po"
  /\ web_url "git@example.com:team/re:po.git"
     <> spec_web_url "git@example.com:team/re:po.git".
Proof. split; [reflexivity | split; [reflexivity | discriminate]]. Qed.

(** ** Sorting *)

Lemma insert_sorted_HdRel (a x : string) (l : list string) :
  str_le a x -> HdRel str_le a l -> HdRel str_le a (insert_sorted x l).
Proof.
  intros Hax Hl. destruct l as [|y l]; simpl.
  - now constructor.
  - destruct (String.leb x y); constructor; [assumption|].
    now inversion Hl.
Qed.

Lemma insert_sorted_Sorted (x : string) (l : list string) :
  Sorted str_le l -> Sorted str_le (insert_sorted x l).
Proof.
  induction 1 as [|y l Hl IH Hy]; simpl.
  - repeat constructor.
  - destruct (String.leb x y) eqn:E.
    + constructor; [now constructor | now constructor].
    + constructor; [exact IH|].
      apply insert_sorted_HdRel; [|exact Hy].
      destruct (String.leb_total x y) as [H|H]; [congruence | exact H].
Qed.

Lemma sorted_Sorted (l : list string) : Sorted str_le (sorted l).
Proof.
  induction l as [|x l IH]; simpl; [constructor|].
  now apply insert_sorted_Sorted.
Qed.

Lemma insert_sorted_perm (x : string) (l : list string) :
  Permutation (x :: l) (insert_sorted x l).
Proof.
  induction l as [|y l IH]; simpl; [reflexivity|].
  destruct (String.leb x y); [reflexivity|].
  rewrite perm_swap. now constructor.
Qed.

Lemma sorted_perm (l : list string) : Permutation l (sorted l).
Proof.
  induction l as [|x l IH]; simpl; [constructor|].
  rewrite <- insert_sorted_perm. now constructor.
Qed.

(** ** Remote branches *)

Lemma clean_branches_filter (lines : list string) :
  clean_branches lines =
  map (fun line => PyStr.replace "origin/" "" (Some 1) (PyStr.strip line))
      (filter kept_line lines).
Proof.
  induction lines as [|line lines IH]; [reflexivity|].
  cbn [clean_branches filter]. unfold kept_line at 1.
  destruct (PyStr.truthy (PyStr.strip line)
            && negb (PyStr.startswith "origin/HEAD" (PyStr.strip line)));
    cbn [map]; now rewrite IH.
Qed.

Lemma in_parse_remote_branches (output name : string) :
  In name (parse_remote_branches output) <->
  exists line,
    In line (PyStr.split nl output) /\ kept_line line = true
    /\ name = PyStr.replace "origin/" "" (Some 1) (PyStr.strip line).
Proof.
  unfold parse_remote_branches. split.
  - intros H. apply (Permutation_in _ (Permutation_sym (sorted_perm _))) in H.
    rewrite clean_branches_filter in H. apply in_map_iff in H as (l & E & H).
    apply filter_In in H as [Hin Hk]. now exists l.
  - intros (l & Hin & Hk & ->).
    apply (Permutation_in _ (sorted_perm _)).
    rewrite clean_branches_filter. apply in_map_iff. exists l.
    split; [reflexivity|]. now apply filter_In.
Qed.

Lemma replace_from_no_more (old new : string) (s : string) :
  PyStr.replace_from old new (Some 0) 0 s = s.
Proof.
  induction s as [|a s IH]; [reflexivity|].
  cbn [PyStr.replace_from andb]. now rewrite IH.
Qed.

Lemma prefix_app_long (p x y : string) :
  String.length p <= String.length x ->
  String.prefix p (x ++ y) = String.prefix p x.
Proof.
  revert x. induction p as [|a p IH]; intros x H.
  - now rewrite !prefix_empty.
  - destruct x as [|b x]; [simpl in H; lia|].
    simpl. destruct (ascii_dec a b); [|reflexivity].
    apply IH. simpl in H. lia.
Qed.

Lemma replace_from_cons (old new : string) (n : nat) (c : ascii) (s : string) :
  PyStr.replace_from old new (Some (S n)) 0 (String c s) =
  if String.prefix old (String c s)
  then new ++ PyStr.replace_from old new (Some n) (String.length old - 1) s
  else String c (PyStr.replace_from old new (Some (S n)) 0 s).
Proof. reflexivity. Qed.

(** Only the first [origin/] of a line is removed. *)
Lemma replace_first_origin (before after : string) :
  PyStr.contains "origin/" (before ++ "origin") = false ->
  PyStr.replace "origin/" "" (Some 1) (before ++ "origin/" ++ after)
  = before ++ after.
Proof.
  unfold PyStr.replace.
  induction before as [|c before IH]; intros H.
  - cbn. rewrite prefix_empty. apply replace_from_no_more.
  - cbn [append PyStr.contains] in H.
    apply orb_false_iff in H as [Hp Hc].
    assert (E : String.prefix "origin/"
                  (String c (before ++ "origin/" ++ after)) = false).
    { replace (String c (before ++ "origin/" ++ after))
        with (String c (before ++ "origin") ++ ("/" ++ after)).
      - rewrite prefix_app_long; [exact Hp|].
        cbn [String.length]. rewrite length_app. simpl. lia.
      - cbn [append]. now rewrite append_assoc. }
    change (String c before ++ "origin/" ++ after)
      with (String c (before ++ "origin/" ++ after)).
    rewrite replace_from_cons, E. cbn [append]. f_equal. now apply IH.
Qed.

Lemma strip_leading_origin (name : string) :
  PyStr.replace "origin/" "" (Some 1) ("origin/" ++ name) = name.
Proof. apply (replace_first_origin "" name). reflexivity. Qed.

Lemma replace_origin_absent (line : string) :
  PyStr.contains "origin/" line = false ->
  PyStr.replace "origin/" "" (Some 1) line = line.
Proof. apply replace_from_absent. Qed.

(** ** Running git *)

Lemma execute_git_command_run (command : list string) (w : world) :
  execute_git_command command w =
  match git_oracle w (git_cmds (log w)) command with
  | Exited0 out => (Ok (true, PyStr.strip out), logged w (EvGit command))
  | ExitedNonZero err =>
      (Ok (false, PyStr.strip err), logged w (EvGit command))
  | NotStarted => (Raise OSError, logged w (EvGit command))
  end.
Proof.
  unfold execute_git_command, try_except, bind, subprocess_run.
  destruct (git_oracle w (git_cmds (log w)) command); reflexivity.
Qed.

Lemma get_remote_branches_run (w : world) :
  get_remote_branches w =
  match git_oracle w (git_cmds (log w)) ["git"; "branch"; "-r"] with
  | Exited0 out =>
      (Ok (parse_remote_branches (PyStr.strip out)),
       logged w (EvGit ["git"; "branch"; "-r"]))
  | ExitedNonZero err => (Ok [], logged w (EvGit ["git"; "branch"; "-r"]))
  | NotStarted => (Raise OSError, logged w (EvGit ["git"; "branch"; "-r"]))
  end.
Proof.
  unfold get_remote_branches, bind. rewrite execute_git_command_run.
  destruct (git_oracle w (git_cmds (log w)) ["git"; "branch"; "-r"]);
    reflexivity.
Qed.

Lemma kept_line_false (line : string) :
  kept_line line = false <->
  PyStr.strip line = ""
  \/ PyStr.startswith "origin/HEAD" (PyStr.strip line) = true.
Proof.
  unfold kept_line. rewrite andb_false_iff, negb_false_iff.
  destruct (PyStr.strip line); simpl; intuition congruence.
Qed.

Lemma kept_line_true (line : string) :
  kept_line line = true <->
  PyStr.strip line <> ""
  /\ PyStr.startswith "origin/HEAD" (PyStr.strip line) = false.
Proof.
  unfold kept_line. rewrite andb_true_iff, negb_true_iff.
  destruct (PyStr.strip line); simpl; intuition congruence.
Qed.

Lemma prefix_app_l (p q s : string) :
  String.prefix (p ++ q) s = true -> String.prefix p s = true.
Proof.
  revert s. induction p as [|a p IH]; intros s; [now rewrite prefix_empty|].
  destruct s as [|b s]; simpl; [discriminate|].
  destruct (ascii_dec a b); [apply IH | discriminate].
Qed.

Lemma no_origin_is_kept (line : string) :
  PyStr.strip line <> "" ->
  PyStr.contains "origin/" (PyStr.strip line) = false ->
  kept_line line = true.
Proof.
  intros Hne Hc. apply kept_line_true. split; [exact Hne|].
  unfold PyStr.startswith.
  destruct (String.prefix "origin/HEAD" (PyStr.strip line)) eqn:E;
    [|reflexivity].
  apply (prefix_app_l "origin/" "HEAD") in E.
  destruct (PyStr.strip line); simpl in Hc;
    [discriminate | simpl in E; rewrite E in Hc; discriminate].
Qed.

Lemma parse_remote_branches_perm (output : string) :
  Permutation
    (parse_remote_branches output)
    (map (fun line => PyStr.replace "origin/" "" (Some 1) (PyStr.strip line))
         (filter kept_line (PyStr.split nl output))).
Proof.
  unfold parse_remote_branches. rewrite <- clean_branches_filter.
  apply Permutation_sym, sorted_perm.
Qed.

(** C4, as the code has it.  When [git branch -r] exits with status 0,
    [get_remote_branches] returns the parse of its trimmed output: the
    output is cut at newlines, every line is trimmed, empty lines and
    lines that begin with [origin/HEAD] are discarded, the first
    [origin/] of every other line is removed (so a leading [origin/] is
    stripped), and the names come back sorted in ascending order.  When
    the command exits with another status the result is the empty
    list.  The example of the specification gives [dev1; uat2]. *)
Theorem get_remote_branches_sorted_names :
  (forall w out,
      next_result w git_branch_r = Exited0 out ->
      outcome_of get_remote_branches w
      = Ok (parse_remote_branches (PyStr.strip out)))
  /\ (forall w err,
        next_result w git_branch_r = ExitedNonZero err ->
        outcome_of get_remote_branches w = Ok [])
  /\ (forall output, Sorted str_le (parse_remote_branches output))
  /\ (forall output name,
        In name (parse_remote_branches output) <->
        exists line,
          In line (PyStr.split nl output)
          /\ PyStr.strip line <> ""
          /\ PyStr.startswith "origin/HEAD" (PyStr.strip line) = false
          /\ name = PyStr.replace "origin/" "" (Some 1) (PyStr.strip line))
  /\ (forall output,
        Permutation
          (parse_remote_branches output)
          (map (fun line =>
                  PyStr.replace "origin/" "" (Some 1) (PyStr.strip line))
               (filter kept_line (PyStr.split nl output))))
  /\ (forall name,
        PyStr.replace "origin/" "" (Some 1) ("origin/" ++ name) = name)
  /\ (forall w,
        next_result w git_branch_r
        = Exited0 ("  origin/HEAD -> origin/main" ++ nl ++ "origin/dev1"
                   ++ nl ++ "origin/uat2") ->
        outcome_of get_remote_branches w = Ok ["dev1"; "uat2"]).
Proof.
  assert (Hrun : forall w out,
             next_result w git_branch_r = Exited0 out ->
             outcome_of get_remote_branches w
             = Ok (parse_remote_branches (PyStr.strip out))).
  { intros w out H. unfold outcome_of, next_result, git_branch_r in *.
    now rewrite get_remote_branches_run, H. }
  split; [exact Hrun|].
  split.
  { intros w err H. unfold outcome_of, next_result, git_branch_r in *.
    now rewrite get_remote_branches_run, H. }
  split; [intros output; apply sorted_Sorted|].
  split.
  { intros output name. rewrite in_parse_remote_branches.
    split; intros (line & Hin & H).
    - exists line. split; [exact Hin|]. destruct H as [Hk ->].
      apply kept_line_true in Hk as [? ?]. now repeat split.
    - destruct H as (Hne & Hh & ->). exists line.
      split; [exact Hin|]. split; [|reflexivity].
      apply kept_line_true. now split. }
  split; [exact parse_remote_branches_perm|].
  split; [exact strip_leading_origin|].
  intros w H. now rewrite (Hrun w _ H).
Qed.

Lemma get_remote_branches_sorted_names_witness :
  outcome_of get_remote_branches
    (scripted_world [Exited0 ("origin/uat2" ++ nl ++ "  origin/dev1")] [])
  = Ok (parse_remote_branches
          (PyStr.strip ("origin/uat2" ++ nl ++ "  origin/dev1")))
  /\ outcome_of get_remote_branches
       (scripted_world [ExitedNonZero "fatal: not a git repository"] [])
     = Ok []
  /\ outcome_of get_remote_branches
       (scripted_world
          [Exited0 ("  origin/HEAD -> origin/main" ++ nl ++ "origin/dev1"
                    ++ nl ++ "origin/uat2")] [])
     = Ok ["dev1"; "uat2"].
Proof.
  destruct get_remote_branches_sorted_names
    as (Hok & Hfail & _ & _ & _ & _ & Hex).
  split; [|split].
  - apply Hok. reflexivity.
  - apply (Hfail _ "fatal: not a git repository"). reflexivity.
  - apply Hex. reflexivity.
Defined.

(** C4, counterexample to the wording of the specification: the HEAD
    pointer line of a remote other than [origin] is not discarded. *)
Lemma head_of_other_remote_not_discarded :
  parse_remote_branches
    ("origin/dev1" ++ nl ++ "  upstream/HEAD -> upstream/main")
  = ["dev1"; "upstream/HEAD -> upstream/main"]
  /\ spec_remote_branches
       ("origin/dev1" ++ nl ++ "  upstream/HEAD -> upstream/main")
     = ["dev1"]
  /\ parse_remote_branches
       ("origin/dev1" ++ nl ++ "  upstream/HEAD -> upstream/main")
     <> spec_remote_branches
          ("origin/dev1" ++ nl ++ "  upstream/HEAD -> upstream/main").
Proof. split; [reflexivity | split; [reflexivity | discriminate]]. Qed.

(** C10, as the code has it.  The lines that are dropped are exactly
    those that are empty after trimming or begin with [origin/HEAD];
    from every other line only the first [origin/] is removed; a line
    in which [origin/] does not occur is returned as it is, trimmed, as
    [upstream/foo] is; and the HEAD pointer line of another remote is
    not discarded. *)
Theorem get_remote_branches_only_origin :
  (forall output,
      Permutation
        (parse_remote_branches output)
        (map (fun line =>
                PyStr.replace "origin/" "" (Some 1) (PyStr.strip line))
             (filter kept_line (PyStr.split nl output))))
  /\ (forall line,
        kept_line line = false <->
        PyStr.strip line = ""
        \/ PyStr.startswith "origin/HEAD" (PyStr.strip line) = true)
  /\ (forall before after,
        PyStr.contains "origin/" (before ++ "origin") = false ->
        PyStr.replace "origin/" "" (Some 1) (before ++ "origin/" ++ after)
        = before ++ after)
  /\ (forall output line,
        In line (PyStr.split nl output) ->
        PyStr.strip line <> "" ->
        PyStr.contains "origin/" (PyStr.strip line) = false ->
        In (PyStr.strip line) (parse_remote_branches output))
  /\ parse_remote_branches "upstream/foo" = ["upstream/foo"]
  /\ parse_remote_branches "upstream/HEAD -> upstream/main"
     = ["upstream/HEAD -> upstream/main"].
Proof.
  split; [exact parse_remote_branches_perm|].
  split; [exact kept_line_false|].
  split; [exact replace_first_origin|].
  split; [|split; reflexivity].
  intros output line Hin Hne Hc.
  apply in_parse_remote_branches. exists line.
  split; [exact Hin|]. split; [now apply no_origin_is_kept|].
  symmetry. now apply replace_origin_absent.
Qed.

Lemma get_remote_branches_only_origin_witness :
  PyStr.replace "origin/" "" (Some 1) ("up/" ++ "origin/" ++ "origin/x")
  = "up/" ++ "origin/x"
  /\ In (PyStr.strip "  upstream/foo")
        (parse_remote_branches ("origin/dev1" ++ nl ++ "  upstream/foo")).
Proof.
  destruct get_remote_branches_only_origin as (_ & _ & Hfirst & Hkeep & _).
  split.
  - apply Hfirst. reflexivity.
  - apply Hkeep.
    + right. left. reflexivity.
    + discriminate.
    + reflexivity.
Defined.

(** C10, counterexample to its wording: a remote whose name ends in
    [origin] loses part of its prefix. *)
Lemma remote_prefix_not_intact :
  "myorigin" <> "origin"
  /\ parse_remote_branches "myorigin/foo" = ["myfoo"]
  /\ ~ In "myorigin/foo" (parse_remote_branches "myorigin/foo").
Proof.
  split; [discriminate|]. split; [reflexivity|].
  intros [H | []]. discriminate.
Qed.

(** ** The executor *)

Lemma git_cmds_app (l1 l2 : list event) :
  git_cmds (l1 ++ l2) = (git_cmds l1 ++ git_cmds l2)%list.
Proof.
  induction l1 as [|e l1 IH]; [reflexivity|].
  destruct e; simpl; now rewrite IH.
Qed.

Lemma logged_all_nil (w : world) : logged_all w [] = w.
Proof. unfold logged_all. rewrite app_nil_r. now destruct w. Qed.

Lemma logged_logged_all (w : world) (evs : list event) (e : event) :
  logged (logged_all w evs) e = logged_all w (evs ++ [e]).
Proof. unfold logged, logged_all. simpl. now rewrite app_assoc. Qed.

Lemma emitted_logged_all {A} (m : M A) (w : world) (r : result A)
      (evs : list event) :
  m w = (r, logged_all w evs) -> emitted m w = evs.
Proof.
  intros H. unfold emitted, world_after. rewrite H. simpl.
  rewrite skipn_app, skipn_all, Nat.sub_diag. reflexivity.
Qed.

Lemma bind_emit {B} (e : event) (k : M B) (w : world) (evs : list event) :
  (emit e ;;; k) (logged_all w evs) = k (logged_all w (evs ++ [e])).
Proof. unfold bind, emit. now rewrite logged_logged_all. Qed.

Lemma bind_rprint {B} (text : string) (k : M B) (w : world)
      (evs : list event) :
  (rprint text ;;; k) (logged_all w evs)
  = k (logged_all w (evs ++ [EvPrint text])).
Proof. apply bind_emit. Qed.

Lemma rprint_run (text : string) (w : world) (evs : list event) :
  rprint text (logged_all w evs)
  = (Ok tt, logged_all w (evs ++ [EvPrint text])).
Proof. unfold rprint, emit. now rewrite logged_logged_all. Qed.

Lemma bind_execute {B} (command : list string) (k : bool * string -> M B)
      (w : world) (evs : list event) :
  (r <- execute_git_command command ;; k r) (logged_all w evs) =
  match git_oracle w (git_cmds (log w) ++ git_cmds evs) command with
  | Exited0 out =>
      k (true, PyStr.strip out) (logged_all w (evs ++ [EvGit command]))
  | ExitedNonZero err =>
      k (false, PyStr.strip err) (logged_all w (evs ++ [EvGit command]))
  | NotStarted => (Raise OSError, logged_all w (evs ++ [EvGit command]))
  end.
Proof.
  unfold bind. rewrite execute_git_command_run, logged_logged_all.
  cbn [logged_all git_oracle log]. rewrite git_cmds_app.
  destruct (git_oracle w (git_cmds (log w) ++ git_cmds evs) command);
    reflexivity.
Qed.

Lemma bind_assoc {A B C} (m : M A) (f : A -> M B) (k : B -> M C) (w : world) :
  (y <- (x <- m ;; f x) ;; k y) w = (x <- m ;; y <- f x ;; k y) w.
Proof. unfold bind. destruct (m w) as [[a|e] w']; reflexivity. Qed.

Lemma bind_ret {A B} (a : A) (k : A -> M B) (w : world) :
  (x <- ret a ;; k x) w = k a w.
Proof. reflexivity. Qed.

Lemma bind_get_option {B} (config : GitConfig.t) (key v : string)
      (k : string -> M B) (w : world) :
  GitConfig.get_option key config = Some v ->
  (x <- get_option config key ;; k x) w = k v w.
Proof. intros H. unfold bind, get_option. now rewrite H. Qed.

Lemma has_fields_get (config : GitConfig.t) (key : string) :
  has_fields config = true -> In key GitConfig.fields ->
  GitConfig.get_option key config = Some (field config key).
Proof.
  unfold has_fields. rewrite forallb_forall. intros H Hin.
  specialize (H key Hin). unfold field.
  now destruct (GitConfig.get_option key config).
Qed.

Lemma create_pr_run (config : GitConfig.t) (w : world) :
  has_fields config = true ->
  create_pr config w =
  (fst (executor_run config (step_result w config 0) (step_result w config 1)
                     (step_result w config 2) (step_result w config 3)),
   logged_all w
     (EvExecutor config
      :: snd (executor_run config
                (step_result w config 0) (step_result w config 1)
                (step_result w config 2) (step_result w config 3)))).
Proof.
  intros Hf.
  assert (Hm := has_fields_get config "commit_message" Hf
                  ltac:(simpl; tauto)).
  assert (Hs := has_fields_get config "source_branch" Hf
                  ltac:(simpl; tauto)).
  assert (Ht := has_fields_get config "target_branch" Hf
                  ltac:(simpl; tauto)).
  assert (Hti := has_fields_get config "pr_title" Hf ltac:(simpl; tauto)).
  assert (Hd := has_fields_get config "pr_description" Hf
                  ltac:(simpl; tauto)).
  unfold create_pr, step_result, executor_run, executor_steps.
  rewrite <- (logged_all_nil w) at 1.
  rewrite bind_emit, bind_execute.
  cbn [git_cmds app firstn nth].
  rewrite app_nil_r.
  destruct (git_oracle w (git_cmds (log w)) git_add) as [o0|e0|] eqn:R0;
    fold git_add; rewrite ?R0; cbn [negb fst snd].
  2: { now rewrite rprint_run. }
  2: { reflexivity. }
  rewrite (bind_get_option _ _ _ _ _ Hm), bind_execute.
  cbn [git_cmds app].
  destruct (git_oracle w (git_cmds (log w) ++ [git_add])
              (git_commit (field config "commit_message")))
    as [o1|e1|] eqn:R1;
    fold (git_commit (field config "commit_message")); rewrite ?R1;
    cbn [negb fst snd].
  2: { now rewrite rprint_run. }
  2: { reflexivity. }
  rewrite (bind_get_option _ _ _ _ _ Hs), bind_execute.
  cbn [git_cmds app].
  destruct (git_oracle w
              (git_cmds (log w)
               ++ [git_add; git_commit (field config "commit_message")])
              (git_push (field config "source_branch")))
    as [o2|e2|] eqn:R2;
    fold (git_push (field config "source_branch")); rewrite ?R2;
    cbn [negb fst snd].
  2: { now rewrite rprint_run. }
  2: { reflexivity. }
  unfold get_bitbucket_url. rewrite bind_assoc, bind_execute.
  cbn [git_cmds app].
  destruct (git_oracle w
              (git_cmds (log w)
               ++ [git_add; git_commit (field config "commit_message");
                   git_push (field config "source_branch")])
              git_get_url)
    as [o3|e3|] eqn:R3;
    fold git_get_url; rewrite ?R3; cbn [negb fst snd]; rewrite ?bind_ret.
  3: { reflexivity. }
  2: { cbn [PyStr.truthy]. now rewrite rprint_run. }
  destruct (PyStr.truthy (PyStr.strip (PyStr.strip o3))); cbn [fst snd].
  2: { now rewrite rprint_run. }
  rewrite !bind_rprint.
  rewrite (bind_get_option _ _ _ _ _ Hs), bind_rprint.
  rewrite (bind_get_option _ _ _ _ _ Ht), bind_rprint.
  rewrite (bind_get_option _ _ _ _ _ Hti), bind_rprint.
  rewrite (bind_get_option _ _ _ _ _ Hd), rprint_run.
  reflexivity.
Qed.


Lemma create_pr_outcome (config : GitConfig.t) (w : world) :
  has_fields config = true ->
  outcome_of (create_pr config) w =
  fst (executor_run config
         (step_result w config 0) (step_result w config 1)
         (step_result w config 2) (step_result w config 3)).
Proof. intros Hf. unfold outcome_of. now rewrite (create_pr_run config w Hf). Qed.






Lemma truthy_false (s : string) : PyStr.truthy s = false <-> s = "".
Proof. destruct s; simpl; intuition congruence. Qed.





(** ** Traces of the menu and of [main] *)

Section Emits.

Variable ok : event -> Prop.

Lemma emits_ret {A} (a : A) : emits ok (ret a).
Proof. intros w. exists []. now rewrite app_nil_r. Qed.

Lemma emits_raise {A} (e : exn) : emits ok (@raise A e).
Proof. intros w. exists []. now rewrite app_nil_r. Qed.

Lemma emits_bind {A B} (m : M A) (k : A -> M B) :
  emits ok m -> (forall a, emits ok (k a)) -> emits ok (bind m k).
Proof.
  intros Hm Hk w. destruct (Hm w) as (e1 & L1 & F1).
  unfold world_after, bind in *.
  destruct (m w) as [[a|e] w1]; simpl in L1.
  - destruct (Hk a w1) as (e2 & L2 & F2). exists (e1 ++ e2)%list.
    unfold world_after in L2. rewrite L2, L1, app_assoc.
    split; [reflexivity | now apply Forall_app].
  - now exists e1.
Qed.

Lemma emits_emit (e : event) : ok e -> emits ok (emit e).
Proof. intros H w. exists [e]. split; [reflexivity | now constructor]. Qed.

Lemma emits_mapM {A B} (f : A -> M B) (l : list A) :
  (forall x, emits ok (f x)) -> emits ok (mapM f l).
Proof.
  intros H. induction l as [|x l IH]; simpl; [apply emits_ret|].
  apply emits_bind; [apply H|]. intros y.
  apply emits_bind; [exact IH|]. intros ys. apply emits_ret.
Qed.

Lemma emits_forM_ {A} (l : list A) (f : A -> M unit) :
  (forall x, emits ok (f x)) -> emits ok (forM_ l f).
Proof.
  intros H. induction l as [|x l IH]; simpl; [apply emits_ret|].
  apply emits_bind; [apply H | intros _; exact IH].
Qed.

Lemma emits_get_option (config : GitConfig.t) (key : string) :
  emits ok (get_option config key).
Proof.
  unfold get_option. destruct (GitConfig.get_option key config);
    [apply emits_ret | apply emits_raise].
Qed.

Lemma emits_argv0 : emits ok argv0.
Proof. intros w. exists []. now rewrite app_nil_r. Qed.

Lemma emits_turns_left : emits ok turns_left.
Proof. intros w. exists []. now rewrite app_nil_r. Qed.

Hypothesis ok_git : forall argv, ok (EvGit argv).
Hypothesis ok_print : forall text, ok (EvPrint text).

Lemma emits_rprint (text : string) : emits ok (rprint text).
Proof. apply emits_emit, ok_print. Qed.

Lemma emits_execute_git_command (command : list string) :
  emits ok (execute_git_command command).
Proof.
  intros w. exists [EvGit command]. unfold world_after.
  rewrite execute_git_command_run. split; [|now repeat constructor].
  now destruct (git_oracle w (git_cmds (log w)) command).
Qed.

Lemma emits_get_remote_branches : emits ok get_remote_branches.
Proof.
  apply emits_bind; [apply emits_execute_git_command|].
  intros [[|] output]; apply emits_ret.
Qed.

Lemma emits_get_bitbucket_url : emits ok get_bitbucket_url.
Proof.
  apply emits_bind; [apply emits_execute_git_command|].
  intros [[|] output]; apply emits_ret.
Qed.

Lemma emits_create_pr (config : GitConfig.t) :
  ok (EvExecutor config) -> emits ok (create_pr config).
Proof.
  intros Hc. unfold create_pr.
  repeat first
    [ apply emits_rprint
    | apply emits_ret
    | apply emits_get_option
    | apply emits_get_bitbucket_url
    | apply emits_execute_git_command
    | apply emits_emit; exact Hc
    | apply emits_bind
    | match goal with
      | |- forall _ : bool * string, _ => intros [[|] ?]; cbn [negb]
      | |- forall _, emits _ _ => intro
      | |- emits _ (if ?c then _ else _) => destruct c
      end ].
Qed.

Hypothesis ok_clear : ok EvClear.
Hypothesis ok_prompt : forall q, ok (EvPrompt q).

Lemma emits_prompt (q : question) : emits ok (prompt q).
Proof.
  intros w. exists [EvPrompt q]. split; [|now repeat constructor].
  unfold world_after, prompt.
  destruct (keys w) as [|a rest]; [reflexivity|].
  destruct q as [name message choices|name message], a as [n|s];
    try reflexivity.
  now destruct (nth_error choices n).
Qed.

Lemma emits_clear_screen : emits ok clear_screen.
Proof. apply emits_emit, ok_clear. Qed.

Lemma emits_get_menu_choices (config : GitConfig.t) :
  ok (EvMenu config) -> emits ok (get_menu_choices config).
Proof.
  intros Hc. unfold get_menu_choices.
  apply emits_bind; [now apply emits_emit|]. intros _.
  apply emits_bind; [apply emits_clear_screen|]. intros _.
  apply emits_bind; [|intros choices; apply emits_prompt].
  apply emits_mapM. intros [display key].
  apply emits_bind; [apply emits_get_option | intros v; apply emits_ret].
Qed.

Lemma emits_handle_branch_choice (current_branch : string) :
  emits ok (handle_branch_choice current_branch).
Proof.
  unfold handle_branch_choice.
  apply emits_bind; [apply emits_clear_screen|]. intros _.
  apply emits_bind; [apply emits_get_remote_branches|]. intros branches.
  destruct (filter _ branches); [|apply emits_prompt].
  apply emits_bind; [apply emits_rprint | intros _; apply emits_ret].
Qed.

Lemma emits_handle_text_input (message key : string) :
  emits ok (handle_text_input message key).
Proof.
  apply emits_bind; [apply emits_clear_screen | intros _; apply emits_prompt].
Qed.

Lemma emits_review_config (config : GitConfig.t) :
  emits ok (review_config config).
Proof.
  unfold review_config.
  repeat first
    [ apply emits_rprint
    | apply emits_ret
    | apply emits_clear_screen
    | apply emits_argv0
    | apply emits_prompt
    | apply emits_forM_
    | apply emits_bind
    | match goal with |- forall _, emits _ _ => intro end ].
Qed.

End Emits.

Lemma get_option_update_other (k key v : string) (o : GitConfig.t) :
  k <> key ->
  GitConfig.get_option k (GitConfig.update_option key v o)
  = GitConfig.get_option k o.
Proof.
  intros Hk. induction o as [|[k' v'] o IH]; simpl.
  - destruct (String.eqb_spec key k); [congruence | reflexivity].
  - destruct (String.eqb_spec k' key) as [->|Hne]; simpl.
    + destruct (String.eqb_spec key k); [congruence | reflexivity].
    + destruct (String.eqb_spec k' k); [reflexivity | exact IH].
Qed.

Lemma field_update_other (k key v : string) (o : GitConfig.t) :
  k <> key -> field (GitConfig.update_option key v o) k = field o k.
Proof. intros H. unfold field. now rewrite get_option_update_other. Qed.

Lemma field_set_if_given_other (k key : string) (x : option string)
      (o : GitConfig.t) :
  k <> key -> field (set_if_given key x o) k = field o k.
Proof.
  intros H. unfold set_if_given. destruct x as [s|]; [|reflexivity].
  destruct (PyStr.truthy s); [now apply field_update_other | reflexivity].
Qed.

Lemma option_mapping_key (action key message : string) :
  lookup action option_mapping = Some (key, message) ->
  key <> "source_branch".
Proof.
  unfold option_mapping. cbn [lookup].
  repeat match goal with
         | |- context [String.eqb ?a ?b] => destruct (String.eqb a b)
         end;
    intros H; try discriminate; injection H as <- _; discriminate.
Qed.

Lemma emits_menu_loop (b current_branch : string) (fuel : nat) :
  forall config,
    field config "source_branch" = b ->
    emits (source_is b) (menu_loop fuel config current_branch).
Proof.
  assert (Hg : forall argv, source_is b (EvGit argv)) by (intros; exact I).
  assert (Hp : forall text, source_is b (EvPrint text)) by (intros; exact I).
  assert (Hc : source_is b EvClear) by exact I.
  assert (Hq : forall q, source_is b (EvPrompt q)) by (intros; exact I).
  induction fuel as [|fuel IH]; intros config Hb; cbn [menu_loop].
  - apply emits_raise.
  - apply emits_bind; [now apply emits_get_menu_choices|]. intros choice.
    destruct (lookup _ option_mapping) as [[key message]|] eqn:E.
    + apply emits_bind.
      * destruct (PyStr.contains "branch" key);
          [now apply emits_handle_branch_choice
          | now apply emits_handle_text_input].
      * intros value. apply IH.
        rewrite field_update_other; [exact Hb|].
        intros Hk. apply option_mapping_key in E. congruence.
    + destruct (String.eqb _ "Review and Create PR"); [|apply emits_ret].
      apply emits_bind; [now apply emits_review_config|].
      intros [|]; [now apply emits_create_pr | now apply IH].
Qed.

Lemma get_current_branch_run (w : world) :
  get_current_branch w =
  match next_result w git_show_current with
  | Exited0 out => (Ok (PyStr.strip out), logged w (EvGit git_show_current))
  | ExitedNonZero _ => (Ok "", logged w (EvGit git_show_current))
  | NotStarted => (Raise OSError, logged w (EvGit git_show_current))
  end.
Proof.
  unfold get_current_branch, bind, next_result, git_show_current.
  rewrite execute_git_command_run.
  now destruct (git_oracle w (git_cmds (log w))
                  ["git"; "branch"; "--show-current"]).
Qed.

Lemma skipn_app_exact {A} (l x : list A) : skipn (List.length l) (l ++ x) = x.
Proof. now rewrite skipn_app, skipn_all, Nat.sub_diag. Qed.

Lemma emits_main_with_branch (b : string)
      (target_branch commit_message pr_title pr_description : option string)
      (interactive : bool) :
  emits (source_is b)
    (main_with_branch b target_branch commit_message pr_title pr_description
                      interactive).
Proof.
  unfold main_with_branch. destruct interactive; cbn [negb].
  - apply emits_bind; [apply emits_turns_left|]. intros fuel.
    now apply emits_menu_loop.
  - apply emits_create_pr; try (intros; exact I). cbn [source_is].
    now rewrite !field_set_if_given_other by discriminate.
Qed.

Lemma main_run
      (target_branch commit_message pr_title pr_description : option string)
      (interactive : bool) (w : world) (out : string) :
  next_result w git_show_current = Exited0 out ->
  PyStr.truthy (PyStr.strip out) = true ->
  main target_branch commit_message pr_title pr_description interactive w
  = main_with_branch (PyStr.strip out) target_branch commit_message pr_title
      pr_description interactive (logged w (EvGit git_show_current)).
Proof.
  intros H Hb. unfold main. unfold bind at 1.
  rewrite get_current_branch_run, H, Hb. reflexivity.
Qed.

Lemma logged_twice (w : world) (e1 e2 : event) :
  logged (logged w e1) e2 = logged_all w [e1; e2].
Proof. unfold logged, logged_all. cbn. now rewrite <- app_assoc. Qed.

Lemma main_without_branch
      (target_branch commit_message pr_title pr_description : option string)
      (interactive : bool) (w : world) :
  outcome_of get_current_branch w = Ok "" ->
  main target_branch commit_message pr_title pr_description interactive w
  = (Ok tt, logged_all w [EvGit git_show_current; EvPrint no_branch_error]).
Proof.
  unfold outcome_of, main, bind. rewrite get_current_branch_run.
  destruct (next_result w git_show_current) as [out|err|]; cbn [fst].
  - intros [= ->]. cbn [PyStr.truthy negb]. unfold rprint, emit.
    now rewrite logged_twice.
  - intros _. cbn [PyStr.truthy negb]. unfold rprint, emit.
    now rewrite logged_twice.
  - discriminate.
Qed.

Lemma main_enters_with_source
      (target_branch commit_message pr_title pr_description : option string)
      (interactive : bool) (w : world) (e : event) (config : GitConfig.t) :
  In e (emitted (main target_branch commit_message pr_title pr_description
                      interactive) w) ->
  enters e config ->
  field config "source_branch" <> ""
  /\ outcome_of get_current_branch w = Ok (field config "source_branch").
Proof.
  destruct (outcome_of get_current_branch w) as [b|x] eqn:Hcur.
  - destruct (PyStr.truthy b) eqn:Hb.
    + (* the branch is known: the rest of [main] keeps it *)
      unfold outcome_of in Hcur. rewrite get_current_branch_run in Hcur.
      destruct (next_result w git_show_current) as [out|err|] eqn:R;
        cbn [fst] in Hcur; [|injection Hcur as <-; discriminate
                            |discriminate].
      injection Hcur as <-.
      unfold emitted, world_after.
      rewrite (main_run _ _ _ _ _ w out R Hb).
      destruct (emits_main_with_branch (PyStr.strip out) target_branch
                  commit_message pr_title pr_description interactive
                  (logged w (EvGit git_show_current))) as (evs & L & F).
      unfold world_after in L. rewrite L.
      cbn [logged log]. rewrite <- app_assoc, skipn_app_exact.
      intros [<-|Hin] Hen; [destruct Hen; discriminate|].
      rewrite Forall_forall in F. specialize (F e Hin).
      assert (Hs : field config "source_branch" = PyStr.strip out).
      { destruct Hen as [-> | ->]; exact F. }
      rewrite Hs. split; [|reflexivity].
      intros Habs. rewrite Habs in Hb. discriminate.
    + apply truthy_false in Hb. subst b.
      rewrite (emitted_logged_all _ w _ _
                 (main_without_branch _ _ _ _ _ w Hcur)).
      intros [<-|[<-|[]]] [H|H]; discriminate.
  - (* git could not be started *)
    unfold outcome_of in Hcur. rewrite get_current_branch_run in Hcur.
    unfold emitted, world_after, main. unfold bind at 1.
    rewrite get_current_branch_run.
    destruct (next_result w git_show_current) as [out|err|];
      [discriminate ..|].
    cbn [snd logged log]. rewrite skipn_app_exact.
    intros [<-|[]] [H|H]; discriminate.
Qed.

(** C7, as the code has it.  [get_current_branch] returns the trimmed
    branch name when the command exits with status 0 and the empty
    string when it exits with another status.  Whenever it returns the
    empty string, [main] prints the error and returns: the only events
    are the query and the message, so the configuration is not used,
    the menu is not entered and the executor is not invoked.  And
    whenever the menu or the executor is entered, the source branch of
    the configuration is the non-empty name that [get_current_branch]
    returned. *)
Theorem current_branch_known_before_use :
  (forall w out,
      next_result w git_show_current = Exited0 out ->
      outcome_of get_current_branch w = Ok (PyStr.strip out))
  /\ (forall w err,
        next_result w git_show_current = ExitedNonZero err ->
        outcome_of get_current_branch w = Ok "")
  /\ (forall w target_branch commit_message pr_title pr_description
             interactive,
        outcome_of get_current_branch w = Ok "" ->
        emitted (main target_branch commit_message pr_title pr_description
                      interactive) w
        = [EvGit git_show_current; EvPrint no_branch_error]
        /\ outcome_of (main target_branch commit_message pr_title
                            pr_description interactive) w = Ok tt)
  /\ (forall w target_branch commit_message pr_title pr_description
             interactive e config,
        In e (emitted (main target_branch commit_message pr_title
                            pr_description interactive) w) ->
        enters e config ->
        field config "source_branch" <> ""
        /\ outcome_of get_current_branch w
           = Ok (field config "source_branch")).
Proof.
  split.
  { intros w out H. unfold outcome_of. now rewrite get_current_branch_run, H. }
  split.
  { intros w err H. unfold outcome_of. now rewrite get_current_branch_run, H. }
  split.
  { intros w tb cm pt pd i H. split.
    - eapply emitted_logged_all. now apply main_without_branch.
    - unfold outcome_of at 1. now rewrite (main_without_branch tb cm pt pd i w H). }
  intros w tb cm pt pd i e config. apply main_enters_with_source.
Qed.

Lemma current_branch_known_before_use_witness :
  outcome_of get_current_branch (scripted_world [Exited0 "  dev1 "] [])
  = Ok (PyStr.strip "  dev1 ")
  /\ outcome_of get_current_branch
       (scripted_world [ExitedNonZero "fatal: not a git repository"] [])
     = Ok ""
  /\ emitted (main None None None None true)
       (scripted_world [ExitedNonZero "fatal: not a git repository"] [])
     = [EvGit git_show_current; EvPrint no_branch_error]
  /\ field (GitConfig.update_option "source_branch" "dev1" GitConfig.init)
           "source_branch" <> "".
Proof.
  destruct current_branch_known_before_use as (Hok & Hfail & Hstop & Hinv).
  split; [|split; [|split]].
  - apply Hok. reflexivity.
  - apply (Hfail _ "fatal: not a git repository"). reflexivity.
  - apply Hstop. reflexivity.
  - apply (Hinv on_dev1 None None None None true
             (EvMenu (GitConfig.update_option "source_branch" "dev1"
                        GitConfig.init))).
    + vm_compute. right. left. reflexivity.
    + left. reflexivity.
Defined.

(** C7, counterexample to its wording: when git cannot be started,
    [get_current_branch] raises, and so does [main]. *)
Lemma get_current_branch_raises :
  outcome_of get_current_branch no_git = Raise OSError
  /\ outcome_of (main None None None None true) no_git = Raise OSError.
Proof. split; reflexivity. Qed.

(** ** Non-interactive mode *)

Lemma executor_run_no_interaction (config : GitConfig.t)
      (r0 r1 r2 r3 : proc_result) :
  existsb is_interaction (snd (executor_run config r0 r1 r2 r3)) = false
  /\ forall c, ~ In (EvExecutor c) (snd (executor_run config r0 r1 r2 r3)).
Proof.
  destruct r0, r1, r2, r3; cbn [executor_run];
    try match goal with
        | |- context [if ?c then _ else _] => destruct c
        end;
    (split; [reflexivity | cbn; intros c H; intuition discriminate]).
Qed.

Lemma logged_all_logged (w : world) (e : event) (evs : list event) :
  logged_all (logged w e) evs = logged_all w (e :: evs).
Proof. unfold logged, logged_all. cbn. now rewrite <- app_assoc. Qed.

(** C6.  On the command line [--no-interactive --commit-message fix],
    in either order, when the current branch is known, [main] goes
    straight from the query of the current branch to the executor; the
    configuration it passes has the current branch as source branch,
    [fix] as commit message and the other three fields empty; and the
    run has no menu, no prompt and no cleared screen, and reads no
    answer. *)
Theorem non_interactive_binding :
  forall w out argv,
    argv = ["--no-interactive"; "--commit-message"; "fix"]
    \/ argv = ["--commit-message"; "fix"; "--no-interactive"] ->
    next_result w git_show_current = Exited0 out ->
    PyStr.strip out <> "" ->
    parse_args argv default_args
    = Accepted (mkArgs None (Some "fix") None None false)
    /\ cli argv w
       = create_pr (fix_config (PyStr.strip out))
                   (logged w (EvGit git_show_current))
    /\ (exists rest,
           emitted (cli argv) w
           = EvGit git_show_current
               :: EvExecutor (fix_config (PyStr.strip out)) :: rest
           /\ existsb is_interaction rest = false
           /\ forall c, ~ In (EvExecutor c) rest)
    /\ keys (world_after (cli argv) w) = keys w.
Proof.
  intros w out argv Hargv R Hb.
  assert (Hp : parse_args argv default_args
               = Accepted (mkArgs None (Some "fix") None None false))
    by (destruct Hargv as [-> | ->]; reflexivity).
  assert (Ht : PyStr.truthy (PyStr.strip out) = true).
  { destruct (PyStr.strip out); [congruence | reflexivity]. }
  assert (Hcli : cli argv w
                 = create_pr (fix_config (PyStr.strip out))
                             (logged w (EvGit git_show_current))).
  { unfold cli. rewrite Hp. cbn [arg_target_branch arg_commit_message
      arg_pr_title arg_pr_description arg_interactive].
    now rewrite (main_run _ _ _ _ _ w out R Ht). }
  assert (Hf : has_fields (fix_config (PyStr.strip out)) = true)
    by reflexivity.
  pose proof (create_pr_run (fix_config (PyStr.strip out))
                (logged w (EvGit git_show_current)) Hf) as Hrun.
  rewrite logged_all_logged in Hrun.
  split; [exact Hp|]. split; [exact Hcli|]. split.
  - eexists. split.
    + eapply emitted_logged_all. rewrite Hcli. exact Hrun.
    + apply executor_run_no_interaction.
  - unfold world_after. rewrite Hcli, Hrun. reflexivity.
Qed.

Lemma non_interactive_binding_witness :
  cli ["--no-interactive"; "--commit-message"; "fix"]
      (scripted_world [Exited0 "dev1"] [])
  = create_pr (fix_config (PyStr.strip "dev1"))
      (logged (scripted_world [Exited0 "dev1"] []) (EvGit git_show_current)).
Proof.
  apply (non_interactive_binding (scripted_world [Exited0 "dev1"] []) "dev1"
           ["--no-interactive"; "--commit-message"; "fix"]).
  - left. reflexivity.
  - reflexivity.
  - discriminate.
Defined.

(** ** The review step and the command line *)

Lemma concat_in (sep p : string) (parts : list string) :
  In p parts ->
  exists before after, String.concat sep parts = before ++ p ++ after.
Proof.
  induction parts as [|x xs IH]; [intros []|].
  intros [->|Hin].
  - exists "". destruct xs as [|y ys].
    + exists "". cbn. now rewrite append_empty_r.
    + now exists (sep ++ String.concat sep (y :: ys)).
  - destruct (IH Hin) as (b & a & E). destruct xs as [|y ys]; [destruct Hin|].
    exists (x ++ sep ++ b), a.
    change (String.concat sep (x :: y :: ys))
      with (x ++ sep ++ String.concat sep (y :: ys)).
    now rewrite E, !append_assoc.
Qed.

Lemma command_parts_source (config : GitConfig.t) (v : string) :
  GitConfig.get_option "source_branch" config = Some v ->
  PyStr.truthy v = true ->
  In (source_branch_flag v) (command_parts config).
Proof.
  intros Hget Hv. unfold command_parts.
  induction config as [|[k x] config IH]; [discriminate|].
  cbn [GitConfig.get_option] in Hget. cbn [filter snd].
  destruct (String.eqb_spec k "source_branch") as [->|Hk].
  - injection Hget as ->. rewrite Hv. left. reflexivity.
  - destruct (PyStr.truthy x); [right|]; now apply IH.
Qed.

Lemma review_command_source (script : string) (config : GitConfig.t)
      (v : string) :
  GitConfig.get_option "source_branch" config = Some v ->
  PyStr.truthy v = true ->
  exists before after,
    review_command script config = before ++ source_branch_flag v ++ after.
Proof.
  intros Hget Hv.
  destruct (concat_in " " _ _ (command_parts_source config v Hget Hv))
    as (b & a & E).
  exists ("python " ++ script ++ " " ++ b), (a ++ " --no-interactive").
  unfold review_command, PyStr.join. now rewrite E, !append_assoc.
Qed.

Lemma bind_ok {A B} (m : M A) (k : A -> M B) (w w' : world) (a : A) :
  m w = (Ok a, w') -> (x <- m ;; k x) w = k a w'.
Proof. intros H. unfold bind. now rewrite H. Qed.

Lemma forM_rprint_run {A} (l : list A) (g : A -> string) (w : world) :
  forall evs,
    forM_ l (fun x => rprint (g x)) (logged_all w evs)
    = (Ok tt, logged_all w (evs ++ map (fun x => EvPrint (g x)) l)).
Proof.
  induction l as [|x l IH]; intros evs; cbn [forM_ map].
  - now rewrite app_nil_r.
  - rewrite bind_rprint, IH, <- app_assoc. reflexivity.
Qed.

Lemma prompt_then_ret_log {B} (q : question) (f : string -> B) (w : world) :
  log (world_after (x <- prompt q ;; ret (f x)) w) = (log w ++ [EvPrompt q])%list.
Proof.
  unfold world_after, bind, prompt.
  destruct (keys w) as [|a rest]; [reflexivity|].
  destruct q as [name message choices|name message], a as [n|s];
    try reflexivity.
  now destruct (nth_error choices n).
Qed.

Lemma review_config_emitted (config : GitConfig.t) (w : world) :
  emitted (review_config config) w = review_events (script_name w) config.
Proof.
  unfold emitted, world_after, review_config, clear_screen.
  rewrite <- (logged_all_nil w) at 2.
  rewrite bind_emit, bind_rprint.
  rewrite (bind_ok _ _ _ _ _ (forM_rprint_run config _ w _)).
  unfold argv0 at 1. unfold bind at 1.
  cbn [logged_all script_name].
  rewrite !bind_rprint.
  fold confirm_question.
  pose proof (prompt_then_ret_log confirm_question
                (PyStr.startswith "Yes")) as Hp.
  unfold world_after in Hp. rewrite Hp. cbn [logged_all log].
  rewrite <- !app_assoc, skipn_app_exact. reflexivity.
Qed.

(** C9.  For a configuration whose source branch is a non-empty [v],
    the command that the review step derives, and prints, contains the
    flag [--source-branch "v"]; with the fields in the order of the
    dictionary it is the first flag.  The options declared for the
    program are the four text options and the two mode flags:
    [--source-branch] is not one of them, and the parser refuses every
    command line that starts with it, so that [main] does not run. *)
Theorem review_command_not_accepted :
  (forall script config v,
      GitConfig.get_option "source_branch" config = Some v ->
      v <> "" ->
      In (source_branch_flag v) (command_parts config)
      /\ exists before after,
           review_command script config
           = before ++ source_branch_flag v ++ after)
  /\ (forall script rest v,
        v <> "" ->
        exists after,
          review_command script (("source_branch", v) :: rest)
          = "python " ++ script ++ " " ++ source_branch_flag v ++ after)
  /\ (forall w config,
        In (EvPrint ("[green]" ++ review_command (script_name w) config
                     ++ "[/]"))
           (emitted (review_config config) w))
  /\ map fst cli_options
     = [ "--target-branch"; "--commit-message"; "--pr-title";
         "--pr-description"; "--interactive"; "--no-interactive" ]
  /\ lookup "--source-branch" cli_options = None
  /\ (forall rest a,
        parse_args ("--source-branch" :: rest) a
        = NoSuchOption "--source-branch")
  /\ (forall rest w,
        cli ("--source-branch" :: rest) w = (Raise (SystemExit 2), w)).
Proof.
  assert (Ht : forall v, v <> "" -> PyStr.truthy v = true).
  { intros [|c v] H; [congruence | reflexivity]. }
  split.
  { intros script config v Hget Hv. split.
    - apply command_parts_source; auto.
    - apply review_command_source; auto. }
  split.
  { intros script rest v Hv. unfold review_command, command_parts.
    cbn [filter snd]. rewrite (Ht v Hv). cbn [map fst snd].
    destruct (map _ (filter _ rest)) as [|y ys] eqn:E.
    - exists " --no-interactive". reflexivity.
    - exists (" " ++ PyStr.join " " (y :: ys) ++ " --no-interactive").
      unfold PyStr.join.
      change (String.concat " " (?x :: y :: ys))
        with (x ++ " " ++ String.concat " " (y :: ys)).
      change ("--" ++ PyStr.replace "_" "-" None "source_branch"
              ++ " " ++ dquote ++ v ++ dquote)
        with (source_branch_flag v).
      now rewrite !append_assoc. }
  split.
  { intros w config. rewrite review_config_emitted. unfold review_events.
    apply in_or_app. right. apply in_or_app. right. right. left.
    reflexivity. }
  repeat split; reflexivity.
Qed.

Lemma review_command_not_accepted_witness :
  In (source_branch_flag "dev1") (command_parts example_config)
  /\ (exists before after,
        review_command "script.py" example_config
        = before ++ source_branch_flag "dev1" ++ after)
  /\ (exists after,
        review_command "script.py" (("source_branch", "dev1") :: [])
        = "python " ++ "script.py" ++ " " ++ source_branch_flag "dev1"
          ++ after).
Proof.
  destruct review_command_not_accepted as (Hin & Hfirst & _).
  split; [|split].
  - apply (Hin "script.py" example_config "dev1"); [reflexivity|discriminate].
  - apply (Hin "script.py" example_config "dev1"); [reflexivity|discriminate].
  - apply Hfirst. discriminate.
Defined.

(** ** The bound on the menu loop is never reached *)

Lemma thrifty_ret {A} (a : A) : thrifty (ret a).
Proof. intros w. split; [apply Nat.le_refl | discriminate]. Qed.

Lemma thrifty_raise {A} (e : exn) : e <> OutOfFuel -> thrifty (@raise A e).
Proof.
  intros H w. split; [apply Nat.le_refl|].
  unfold outcome_of, raise. simpl. congruence.
Qed.

Lemma thrifty_bind {A B} (m : M A) (k : A -> M B) :
  thrifty m -> (forall a, thrifty (k a)) -> thrifty (bind m k).
Proof.
  intros Hm Hk w. destruct (Hm w) as [L1 N1].
  unfold world_after, outcome_of, bind in *.
  destruct (m w) as [[a|e] w1]; simpl in *.
  - destruct (Hk a w1) as [L2 N2]. unfold world_after, outcome_of in *.
    split; [lia | exact N2].
  - split; [exact L1 | congruence].
Qed.

Lemma consuming_bind {A B} (m : M A) (k : A -> M B) :
  thrifty m -> (forall a, consuming (k a)) -> consuming (bind m k).
Proof.
  intros Hm Hk w. destruct (Hm w) as [L1 N1].
  unfold world_after, outcome_of, bind in *.
  destruct (m w) as [[a|e] w1]; simpl in *.
  - destruct (Hk a w1) as [[L2 N2] S2]. unfold world_after, outcome_of in *.
    split; [split; [lia | exact N2]|].
    intros b Hb. specialize (S2 b Hb). lia.
  - split; [split; [exact L1 | congruence] | discriminate].
Qed.

Lemma thrifty_emit (e : event) : thrifty (emit e).
Proof. intros w. split; [apply Nat.le_refl | discriminate]. Qed.

Lemma thrifty_get_option (config : GitConfig.t) (key : string) :
  thrifty (get_option config key).
Proof.
  unfold get_option. destruct (GitConfig.get_option key config);
    [apply thrifty_ret | apply thrifty_raise; discriminate].
Qed.

Lemma thrifty_execute_git_command (command : list string) :
  thrifty (execute_git_command command).
Proof.
  intros w. unfold world_after, outcome_of.
  rewrite execute_git_command_run.
  destruct (git_oracle w (git_cmds (log w)) command);
    (split; [apply Nat.le_refl | discriminate]).
Qed.

Lemma consuming_prompt (q : question) : consuming (prompt q).
Proof.
  intros w. unfold world_after, outcome_of, prompt.
  destruct (keys w) as [|a rest]; simpl.
  - split; [split; [lia | discriminate] | discriminate].
  - destruct q as [name message choices|name message], a as [n|s];
      try destruct (nth_error choices n); simpl;
      (split; [split; [lia | discriminate] | intros; try discriminate; lia]).
Qed.

Lemma consuming_thrifty {A} (m : M A) : consuming m -> thrifty m.
Proof. intros H w. apply (H w). Qed.

Lemma thrifty_mapM {A B} (f : A -> M B) (l : list A) :
  (forall x, thrifty (f x)) -> thrifty (mapM f l).
Proof.
  intros H. induction l as [|x l IH]; simpl; [apply thrifty_ret|].
  apply thrifty_bind; [apply H|]. intros y.
  apply thrifty_bind; [exact IH | intros ys; apply thrifty_ret].
Qed.

Lemma thrifty_forM_ {A} (l : list A) (f : A -> M unit) :
  (forall x, thrifty (f x)) -> thrifty (forM_ l f).
Proof.
  intros H. induction l as [|x l IH]; simpl; [apply thrifty_ret|].
  apply thrifty_bind; [apply H | intros _; exact IH].
Qed.

Lemma thrifty_state {A} (f : world -> A) : thrifty (fun w => (Ok (f w), w)).
Proof. intros w. split; [apply Nat.le_refl | discriminate]. Qed.

Ltac thrifty_steps :=
  repeat first
    [ apply thrifty_ret
    | apply thrifty_emit
    | apply thrifty_get_option
    | apply thrifty_execute_git_command
    | apply (thrifty_state script_name)
    | apply consuming_thrifty, consuming_prompt
    | apply thrifty_forM_
    | apply thrifty_mapM
    | apply thrifty_bind
    | match goal with
      | |- forall _ : bool * string, _ => intros [[|] ?]; cbn [negb]
      | |- forall _ : string * string, _ => intros [? ?]
      | |- forall _, thrifty _ => intro
      | |- thrifty (if ?c then _ else _) => destruct c
      | |- thrifty (match ?l with [] => _ | _ :: _ => _ end) => destruct l
      end ].

Lemma thrifty_create_pr (config : GitConfig.t) : thrifty (create_pr config).
Proof. unfold create_pr, get_bitbucket_url, rprint. thrifty_steps. Qed.

Lemma thrifty_review_config (config : GitConfig.t) :
  thrifty (review_config config).
Proof.
  unfold review_config, clear_screen, rprint, argv0. thrifty_steps.
Qed.

Lemma thrifty_handle_branch_choice (current_branch : string) :
  thrifty (handle_branch_choice current_branch).
Proof.
  unfold handle_branch_choice, get_remote_branches, clear_screen, rprint.
  thrifty_steps.
Qed.

Lemma thrifty_handle_text_input (message key : string) :
  thrifty (handle_text_input message key).
Proof. unfold handle_text_input, clear_screen. thrifty_steps. Qed.

Lemma consuming_get_menu_choices (config : GitConfig.t) :
  consuming (get_menu_choices config).
Proof.
  unfold get_menu_choices, clear_screen.
  apply consuming_bind; [apply thrifty_emit|]. intros _.
  apply consuming_bind; [apply thrifty_emit|]. intros _.
  apply consuming_bind; [thrifty_steps|]. intros choices.
  apply consuming_prompt.
Qed.

(** With more fuel than there are answers left, the loop ends by one of
    its exits or by an exception of the script, never by the bound. *)
Lemma menu_loop_fuel_enough (current_branch : string) (fuel : nat) :
  forall config w,
    List.length (keys w) < fuel ->
    outcome_of (menu_loop fuel config current_branch) w <> Raise OutOfFuel.
Proof.
  induction fuel as [|fuel IH]; intros config w Hlen; [lia|].
  cbn [menu_loop]. unfold outcome_of, bind at 1.
  destruct (consuming_get_menu_choices config w) as [[L N] Hs].
  unfold outcome_of, world_after in *.
  destruct (get_menu_choices config w) as [[choice|e] w1]; cbn [fst snd] in *;
    [|congruence].
  specialize (Hs choice eq_refl).
  destruct (lookup _ option_mapping) as [[key message]|].
  - unfold bind at 1.
    assert (Hv : thrifty (if PyStr.contains "branch" key
                          then handle_branch_choice current_branch
                          else handle_text_input message key)).
    { destruct (PyStr.contains "branch" key);
        [apply thrifty_handle_branch_choice | apply thrifty_handle_text_input]. }
    destruct (Hv w1) as [L2 N2]. unfold outcome_of, world_after in *.
    destruct ((if PyStr.contains "branch" key
               then handle_branch_choice current_branch
               else handle_text_input message key) w1) as [[value|e] w2];
      cbn [fst snd] in *; [|congruence].
    apply IH. lia.
  - destruct (String.eqb _ "Review and Create PR"); [|discriminate].
    unfold bind at 1.
    destruct (thrifty_review_config config w1) as [L2 N2].
    unfold outcome_of, world_after in *.
    destruct (review_config config w1) as [[[|]|e] w2]; cbn [fst snd] in *;
      [| |congruence].
    + apply (thrifty_create_pr config w2).
    + apply IH. lia.
Qed.

Lemma main_never_out_of_fuel
      (target_branch commit_message pr_title pr_description : option string)
      (interactive : bool) (w : world) :
  outcome_of (main target_branch commit_message pr_title pr_description
                   interactive) w <> Raise OutOfFuel.
Proof.
  unfold outcome_of, main. unfold bind at 1. rewrite get_current_branch_run.
  destruct (next_result w git_show_current) as [out|err|]; simpl;
    try discriminate.
  destruct (PyStr.truthy (PyStr.strip out)); simpl; [|discriminate].
  destruct interactive; simpl.
  - apply (menu_loop_fuel_enough (PyStr.strip out)
             (S (List.length (keys w)))
             _ (logged w (EvGit git_show_current))).
    simpl. lia.
  - apply (thrifty_create_pr _ (logged w (EvGit git_show_current))).
Qed.

(* ================================================================== *)
(** * Further properties of the script *)
(* ================================================================== *)

(** ** The configuration store *)

Lemma get_option_update_same (key value : string) (o : GitConfig.t) :
  GitConfig.get_option key (GitConfig.update_option key value o) = Some value.
Proof.
  induction o as [|[k v] o IH]; simpl.
  - now rewrite String.eqb_refl.
  - destruct (String.eqb_spec k key) as [->|Hne]; simpl.
    + now rewrite String.eqb_refl.
    + destruct (String.eqb_spec k key); [congruence | exact IH].
Qed.

Lemma update_option_keys_present (key value : string) (o : GitConfig.t) :
  In key (map fst o) ->
  map fst (GitConfig.update_option key value o) = map fst o.
Proof.
  induction o as [|[k v] o IH]; [intros []|]. simpl.
  destruct (String.eqb_spec k key) as [->|Hne]; [reflexivity|].
  intros [H|H]; [congruence|]. simpl. now rewrite IH.
Qed.

Lemma update_option_keys_absent (key value : string) (o : GitConfig.t) :
  ~ In key (map fst o) ->
  GitConfig.update_option key value o = (o ++ [(key, value)])%list.
Proof.
  induction o as [|[k v] o IH]; [reflexivity|]. simpl. intros H.
  destruct (String.eqb_spec k key) as [->|Hne]; [tauto|].
  rewrite IH; [reflexivity | tauto].
Qed.

(** X1.  [update_option] followed by [get_option] on the same key gives
    the stored value; every other key reads as before; a key that is
    present keeps its place, so the order of the items is unchanged;
    a key that is absent is added at the end. *)
Theorem update_option_then_get_option :
  forall key value o,
    GitConfig.get_option key (GitConfig.update_option key value o)
    = Some value
    /\ (forall k, k <> key ->
                  GitConfig.get_option k (GitConfig.update_option key value o)
                  = GitConfig.get_option k o)
    /\ (In key (map fst o) ->
        map fst (GitConfig.update_option key value o) = map fst o)
    /\ (~ In key (map fst o) ->
        GitConfig.update_option key value o = (o ++ [(key, value)])%list).
Proof.
  intros key value o.
  split; [apply get_option_update_same|].
  split; [intros k Hk; now apply get_option_update_other|].
  split; [apply update_option_keys_present | apply update_option_keys_absent].
Qed.

Lemma update_option_then_get_option_witness :
  GitConfig.get_option "pr_title"
    (GitConfig.update_option "commit_message" "fix" GitConfig.init)
  = GitConfig.get_option "pr_title" GitConfig.init
  /\ map fst (GitConfig.update_option "commit_message" "fix" GitConfig.init)
     = map fst GitConfig.init
  /\ GitConfig.update_option "assignee" "ann" GitConfig.init
     = (GitConfig.init ++ [("assignee", "ann")])%list.
Proof.
  destruct (update_option_then_get_option "commit_message" "fix"
              GitConfig.init) as (_ & Hother & Hkeys & _).
  destruct (update_option_then_get_option "assignee" "ann" GitConfig.init)
    as (_ & _ & _ & Hnew).
  split; [|split].
  - apply Hother. discriminate.
  - apply Hkeys. simpl. tauto.
  - apply Hnew. simpl. intuition discriminate.
Defined.

Lemma get_option_is_some (k key value : string) (o : GitConfig.t) :
  GitConfig.get_option k o <> None ->
  GitConfig.get_option k (GitConfig.update_option key value o) <> None.
Proof.
  intros H. destruct (String.eqb_spec k key) as [->|Hne].
  - now rewrite get_option_update_same.
  - now rewrite get_option_update_other.
Qed.

Lemma has_fields_update (key value : string) (o : GitConfig.t) :
  has_fields o = true ->
  has_fields (GitConfig.update_option key value o) = true.
Proof.
  unfold has_fields. rewrite !forallb_forall. intros H k Hk.
  specialize (H k Hk).
  pose proof (get_option_is_some k key value o) as Hs.
  destruct (GitConfig.get_option k o); [|discriminate].
  destruct (GitConfig.get_option k (GitConfig.update_option key value o));
    [reflexivity|].
  exfalso. apply Hs; [discriminate | reflexivity].
Qed.

(** X2.  A fresh configuration holds the five fields, [update_option]
    never loses one of them, whatever key it is given, and as long as
    they are held, reading any of the five never raises [KeyError]. *)
Theorem configuration_keeps_its_fields :
  has_fields GitConfig.init = true
  /\ (forall key value o,
        has_fields o = true ->
        has_fields (GitConfig.update_option key value o) = true)
  /\ (forall o k w,
        has_fields o = true ->
        In k GitConfig.fields ->
        get_option o k w = (Ok (field o k), w)).
Proof.
  split; [reflexivity|]. split; [exact has_fields_update|].
  intros o k w Hf Hk. unfold get_option.
  now rewrite (has_fields_get o k Hf Hk).
Qed.

Lemma configuration_keeps_its_fields_witness :
  has_fields (GitConfig.update_option "target_branch" "uat1" GitConfig.init)
  = true
  /\ get_option example_config "commit_message" no_git
     = (Ok (field example_config "commit_message"), no_git).
Proof.
  destruct configuration_keeps_its_fields as (_ & Hupd & Hget).
  split.
  - apply Hupd. reflexivity.
  - apply Hget; [reflexivity | simpl; tauto].
Defined.

(** ** Trimmed output *)

Lemma rstrip_last (s : string) : not_space (last_char (PyStr.rstrip s)) = true.
Proof.
  induction s as [|c s IH]; [reflexivity|]. cbn [PyStr.rstrip].
  destruct (PyStr.rstrip s) as [|d r] eqn:E.
  - destruct (PyStr.is_space c) eqn:Hc; [reflexivity|].
    cbn. now rewrite Hc.
  - exact IH.
Qed.

Lemma rstrip_first (s : string) :
  not_space (first_char s) = true ->
  not_space (first_char (PyStr.rstrip s)) = true.
Proof.
  destruct s as [|c s]; [reflexivity|]. cbn [PyStr.rstrip first_char].
  intros H. destruct (PyStr.rstrip s).
  - cbn [not_space] in H. apply negb_true_iff in H. rewrite H.
    cbn. now rewrite H.
  - exact H.
Qed.

Lemma lstrip_first (s : string) :
  not_space (first_char (PyStr.lstrip s)) = true.
Proof.
  induction s as [|c s IH]; [reflexivity|]. cbn [PyStr.lstrip].
  destruct (PyStr.is_space c) eqn:Hc; [exact IH|].
  cbn. now rewrite Hc.
Qed.

Lemma lstrip_fixed (s : string) :
  not_space (first_char s) = true -> PyStr.lstrip s = s.
Proof.
  destruct s as [|c s]; [reflexivity|]. cbn. intros H.
  apply negb_true_iff in H. now rewrite H.
Qed.

Lemma rstrip_fixed (s : string) :
  not_space (last_char s) = true -> PyStr.rstrip s = s.
Proof.
  induction s as [|c s IH]; [reflexivity|].
  destruct s as [|d s'].
  - cbn. intros H. apply negb_true_iff in H. now rewrite H.
  - intros H. change (last_char (String c (String d s')))
      with (last_char (String d s')) in H.
    specialize (IH H). cbn [PyStr.rstrip] in *. rewrite IH. reflexivity.
Qed.

Lemma strip_trimmed (s : string) : trimmed (PyStr.strip s) = true.
Proof.
  unfold trimmed, PyStr.strip. apply andb_true_iff. split.
  - apply rstrip_first, lstrip_first.
  - apply rstrip_last.
Qed.

Lemma strip_fixed (s : string) : trimmed s = true -> PyStr.strip s = s.
Proof.
  unfold trimmed, PyStr.strip. intros H. apply andb_true_iff in H as [H1 H2].
  rewrite (lstrip_fixed s H1). now apply rstrip_fixed.
Qed.

Lemma strip_idempotent (s : string) :
  PyStr.strip (PyStr.strip s) = PyStr.strip s.
Proof. apply strip_fixed, strip_trimmed. Qed.

(** X3.  The text that [execute_git_command] returns, standard output
    or error text, neither begins nor ends with white space, and
    trimming it again changes nothing; so the second [strip] of
    [get_bitbucket_url] is the identity: it returns the output of the
    command trimmed once. *)
Theorem git_output_is_trimmed :
  (forall command w success output,
      outcome_of (execute_git_command command) w = Ok (success, output) ->
      trimmed output = true /\ PyStr.strip output = output)
  /\ (forall w out,
        next_result w git_get_url = Exited0 out ->
        outcome_of get_bitbucket_url w = Ok (PyStr.strip out))
  /\ (forall w out,
        next_result w git_show_current = Exited0 out ->
        outcome_of get_current_branch w = Ok (PyStr.strip out)
        /\ trimmed (PyStr.strip out) = true).
Proof.
  split.
  { intros command w success output. unfold outcome_of.
    rewrite execute_git_command_run.
    destruct (git_oracle w (git_cmds (log w)) command); cbn [fst];
      intros [= <- <-] || discriminate;
      (split; [apply strip_trimmed | apply strip_idempotent]). }
  split.
  { intros w out H.
    unfold outcome_of, get_bitbucket_url, bind, next_result, git_get_url in *.
    rewrite execute_git_command_run, H. cbn. now rewrite strip_idempotent. }
  intros w out H. unfold outcome_of. rewrite get_current_branch_run, H.
  split; [reflexivity | apply strip_trimmed].
Qed.

Lemma git_output_is_trimmed_witness :
  (trimmed (PyStr.strip "  dev1 ") = true
   /\ PyStr.strip (PyStr.strip "  dev1 ") = PyStr.strip "  dev1 ")
  /\ outcome_of get_bitbucket_url
       (scripted_world [Exited0 " git@example.com:team/repo.git "] [])
     = Ok (PyStr.strip " git@example.com:team/repo.git ").
Proof.
  destruct git_output_is_trimmed as (Hexec & Hurl & _).
  split.
  - apply (Hexec git_show_current (scripted_world [Exited0 "  dev1 "] [])
             true). reflexivity.
  - apply Hurl. reflexivity.
Defined.

(** ** The pattern and the order of environments *)

(** X4.  On every string the backtracking match of [([a-z]+)(\d+)]
    is the greedy one: it succeeds exactly when the longest run of
    lowercase letters at the start is not empty and is followed by a
    digit; group 1 is that run and group 2 the longest run of digits
    after it. *)
Theorem env_pattern_match_is_greedy :
  forall s,
    match Re.re_match env_pattern s with
    | Some groups =>
        groups = [ take_while is_lower s;
                   take_while is_digit (drop_while is_lower s) ]
        /\ take_while is_lower s <> ""
        /\ take_while is_digit (drop_while is_lower s) <> ""
    | None =>
        take_while is_lower s = ""
        \/ take_while is_digit (drop_while is_lower s) = ""
    end.
Proof.
  intros s. rewrite re_match_env_groups. unfold env_groups.
  destruct (take_while is_lower s) as [|a p]; [now left|].
  destruct (take_while is_digit (drop_while is_lower s)) as [|b d];
    [now right|].
  repeat split; discriminate.
Qed.

Lemma index_bound (x : string) (l : list string) (i : nat) :
  PyStr.index x l = Some i -> i < List.length l.
Proof.
  revert i. induction l as [|y l IH]; intros i; simpl; [discriminate|].
  destruct (String.eqb y x); [intros [= <-]; lia|].
  destruct (PyStr.index x l) as [j|]; [|discriminate].
  intros [= <-]. specialize (IH j eq_refl). lia.
Qed.

Lemma is_valid_on_recognised (s t : string) (i j : nat) :
  recognised s i -> recognised t j ->
  is_valid_target_branch s t = (i <? j).
Proof.
  intros (ps & Hs & Hi) (pt & Ht & Hj).
  now rewrite (is_valid_on_shaped s t ps pt Hs Ht), Hi, Hj.
Qed.

(** X5.  On recognised environment branches the validator is a strict
    order: no branch is a valid target of itself, two branches are
    never valid targets of each other, and validity is transitive;
    and a branch of the last environment of the table has no valid
    recognised target at all. *)
Theorem valid_target_is_strict_order :
  (forall s i, recognised s i -> is_valid_target_branch s s = false)
  /\ (forall s t i j,
        recognised s i -> recognised t j ->
        is_valid_target_branch s t = true ->
        is_valid_target_branch t s = false)
  /\ (forall a b c i j k,
        recognised a i -> recognised b j -> recognised c k ->
        is_valid_target_branch a b = true ->
        is_valid_target_branch b c = true ->
        is_valid_target_branch a c = true)
  /\ (forall s t j,
        recognised s 2 -> recognised t j ->
        is_valid_target_branch s t = false).
Proof.
  split.
  { intros s i H. rewrite (is_valid_on_recognised s s i i H H).
    apply Nat.ltb_irrefl. }
  split.
  { intros s t i j Hs Ht. rewrite (is_valid_on_recognised s t i j Hs Ht).
    rewrite (is_valid_on_recognised t s j i Ht Hs).
    rewrite Nat.ltb_lt, Nat.ltb_ge. lia. }
  split.
  { intros a b c i j k Ha Hb Hc.
    rewrite (is_valid_on_recognised a b i j Ha Hb).
    rewrite (is_valid_on_recognised b c j k Hb Hc).
    rewrite (is_valid_on_recognised a c i k Ha Hc).
    rewrite !Nat.ltb_lt. lia. }
  intros s t j Hs Ht. rewrite (is_valid_on_recognised s t 2 j Hs Ht).
  apply Nat.ltb_ge. destruct Ht as (pt & _ & Hj).
  apply index_bound in Hj. simpl in Hj. lia.
Qed.

Lemma recognised_example (p d : string) (i : nat) :
  p <> "" -> all_chars is_lower p = true ->
  d <> "" -> all_chars is_digit d = true ->
  PyStr.index p env_order = Some i ->
  recognised (p ++ d) i.
Proof.
  intros Hp Hpl Hd Hdl Hi. exists p.
  split; [now apply letters_then_digits_example | exact Hi].
Qed.

Lemma valid_target_is_strict_order_witness :
  is_valid_target_branch "dev2" "dev2" = false
  /\ is_valid_target_branch "uat1" "sbx3" = false
  /\ is_valid_target_branch "sbx1" "uat9" = true
  /\ is_valid_target_branch "uat4" "dev1" = false.
Proof.
  assert (Hs : recognised ("sbx" ++ "1") 0)
    by (apply recognised_example;
        [discriminate | reflexivity | discriminate | reflexivity
        | reflexivity]).
  assert (Hd : recognised ("dev" ++ "2") 1)
    by (apply recognised_example;
        [discriminate | reflexivity | discriminate | reflexivity
        | reflexivity]).
  assert (Hd1 : recognised ("dev" ++ "1") 1)
    by (apply recognised_example;
        [discriminate | reflexivity | discriminate | reflexivity
        | reflexivity]).
  assert (Hu : recognised ("uat" ++ "9") 2)
    by (apply recognised_example;
        [discriminate | reflexivity | discriminate | reflexivity
        | reflexivity]).
  assert (Hu1 : recognised ("uat" ++ "1") 2)
    by (apply recognised_example;
        [discriminate | reflexivity | discriminate | reflexivity
        | reflexivity]).
  assert (Hu4 : recognised ("uat" ++ "4") 2)
    by (apply recognised_example;
        [discriminate | reflexivity | discriminate | reflexivity
        | reflexivity]).
  assert (Hs3 : recognised ("sbx" ++ "3") 0)
    by (apply recognised_example;
        [discriminate | reflexivity | discriminate | reflexivity
        | reflexivity]).
  destruct valid_target_is_strict_order as (Hirr & Hasym & Htrans & Hlast).
  split; [|split; [|split]].
  - exact (Hirr _ _ Hd).
  - apply (Hasym "sbx3" "uat1" 0 2 Hs3 Hu1). reflexivity.
  - apply (Htrans "sbx1" "dev2" "uat9" 0 1 2 Hs Hd Hu); reflexivity.
  - exact (Hlast _ _ _ Hu4 Hd1).
Defined.

(** X6.  Only the letters of an environment branch count: two names
    with the same letter prefix are interchangeable, as source and as
    target, against any other name whatever. *)
Theorem environment_number_is_ignored :
  forall s s' p other,
    letters_then_digits s p -> letters_then_digits s' p ->
    is_valid_target_branch s other = is_valid_target_branch s' other
    /\ is_valid_target_branch other s = is_valid_target_branch other s'.
Proof.
  intros s s' p other Hs Hs'.
  apply re_match_env_shape in Hs as [d Hs].
  apply re_match_env_shape in Hs' as [d' Hs'].
  unfold is_valid_target_branch. rewrite Hs, Hs'.
  destruct (Re.re_match env_pattern other); split; reflexivity.
Qed.

Lemma environment_number_is_ignored_witness :
  is_valid_target_branch "dev1" "feature-x"
  = is_valid_target_branch "dev22" "feature-x"
  /\ is_valid_target_branch "feature-x" "dev1"
     = is_valid_target_branch "feature-x" "dev22".
Proof.
  apply (environment_number_is_ignored "dev1" "dev22" "dev" "feature-x").
  - apply (letters_then_digits_example "dev" "1");
      [discriminate | reflexivity | discriminate | reflexivity].
  - apply (letters_then_digits_example "dev" "22");
      [discriminate | reflexivity | discriminate | reflexivity].
Defined.

(** ** The order of the branch list *)


Lemma string_compare_cons (a b : ascii) (s t : string) :
  String.compare (String a s) (String b t) =
  match Ascii.compare a b with
  | Eq => String.compare s t
  | ne => ne
  end.
Proof. reflexivity. Qed.








(** ** The final [.git] *)

Lemma endswith_inv (suf s : string) :
  PyStr.endswith suf s = true -> exists base, s = base ++ suf.
Proof.
  induction s as [|c s IH].
  - cbn [PyStr.endswith]. rewrite orb_false_r. intros H.
    apply String.eqb_eq in H. now exists "".
  - cbn [PyStr.endswith]. intros H. apply orb_true_iff in H as [H|H].
    + apply String.eqb_eq in H. now exists "".
    + destruct (IH H) as [base ->]. now exists (String c base).
Qed.

(** X8.  [strip_dot_git] removes the suffix [.git] and nothing else:
    when the address ends in [.git], putting the suffix back gives the
    address again and the result is four characters shorter; any other
    address, also one shorter than four characters, is returned as it
    is. *)
Theorem strip_dot_git_removes_the_suffix :
  forall u,
    (PyStr.endswith ".git" u = true ->
     strip_dot_git u ++ ".git" = u
     /\ String.length (strip_dot_git u) + 4 = String.length u)
    /\ (PyStr.endswith ".git" u = false -> strip_dot_git u = u).
Proof.
  intros u. split.
  - intros H. destruct (endswith_inv _ _ H) as [base ->].
    rewrite strip_dot_git_app, length_app. now split.
  - intros H. unfold strip_dot_git. now rewrite H.
Qed.

Lemma strip_dot_git_removes_the_suffix_witness :
  (strip_dot_git "https://example.com/team/repo.git" ++ ".git"
   = "https://example.com/team/repo.git"
   /\ String.length (strip_dot_git "https://example.com/team/repo.git") + 4
      = String.length "https://example.com/team/repo.git")
  /\ strip_dot_git "git" = "git".
Proof.
  split.
  - apply (proj1 (strip_dot_git_removes_the_suffix
                    "https://example.com/team/repo.git")). reflexivity.
  - apply (proj2 (strip_dot_git_removes_the_suffix "git")). reflexivity.
Defined.

(** ** The rows of the menu *)

Lemma menu_row_action (display key value : string) :
  In (display, key) menu_options ->
  action_of (PyStr.ljust 25 display ++ " : [" ++ value ++ "]") = display.
Proof.
  unfold menu_options, action_of, PyStr.split.
  intros [H|[H|[H|[H|[H|[]]]]]]; injection H as <- <-;
    cbn [PyStr.ljust String.length Nat.sub PyStr.spaces append
         PyStr.split_from String.prefix];
    cbn; rewrite prefix_empty; reflexivity.
Qed.

Lemma menu_rows_action (config : GitConfig.t) (n : nat) (row : string) :
  nth_error (menu_rows config) n = Some row ->
  action_of row
  = nth n (map fst menu_options ++ ["Review and Create PR"; "Exit"])%list "".
Proof.
  unfold menu_rows.
  destruct n as [|[|[|[|[|[|[|n]]]]]]];
    cbn [nth_error map app menu_options menu_row fst snd];
    [| | | | | | |destruct n; discriminate];
    intros [= <-]; unfold menu_row; cbn [fst snd nth];
    first [ reflexivity | eapply menu_row_action; simpl; eauto 10 ].
Qed.

(** X9.  The action is read back from the rendered row without fail:
    whatever value a field holds, also one that contains the
    separator itself, the row of a field stands for the label of that
    field; and the two fixed rows stand for themselves. *)
Theorem menu_row_stands_for_its_label :
  (forall display key value,
      In (display, key) menu_options ->
      action_of (PyStr.ljust 25 display ++ " : [" ++ value ++ "]") = display)
  /\ action_of "Review and Create PR" = "Review and Create PR"
  /\ action_of "Exit" = "Exit"
  /\ (forall config n row,
        nth_error (menu_rows config) n = Some row ->
        action_of row
        = nth n (map fst menu_options ++ ["Review and Create PR"; "Exit"])%list
              "").
Proof.
  split; [exact menu_row_action|]. split; [reflexivity|].
  split; [reflexivity|].
  exact menu_rows_action.
Qed.

Lemma menu_row_stands_for_its_label_witness :
  action_of (PyStr.ljust 25 "Commit Message" ++ " : [" ++ "a : [b" ++ "]")
  = "Commit Message"
  /\ action_of (PyStr.ljust 25 "Target Branch" ++ " : [" ++ "uat1" ++ "]")
     = nth 1 (map fst menu_options ++ ["Review and Create PR"; "Exit"])%list
           "".
Proof.
  destruct menu_row_stands_for_its_label as (Hrow & _ & _ & Hnth).
  split.
  - apply (Hrow "Commit Message" "commit_message"). simpl. tauto.
  - apply (Hnth (GitConfig.update_option "target_branch" "uat1"
                   GitConfig.init) 1). reflexivity.
Defined.

(** ** One turn of the menu *)

Lemma advance_start (w : world) : advance w 0 [] = w.
Proof. unfold advance. cbn [skipn]. rewrite app_nil_r. now destruct w. Qed.

Lemma logged_advance (w : world) (n : nat) (evs : list event) (e : event) :
  logged (advance w n evs) e = advance w n (evs ++ [e]).
Proof. unfold logged, advance. cbn. now rewrite app_assoc. Qed.

Lemma emit_advance {B} (e : event) (k : M B) (w : world) (n : nat)
      (evs : list event) :
  (emit e ;;; k) (advance w n evs) = k (advance w n (evs ++ [e])).
Proof. unfold bind, emit. now rewrite logged_advance. Qed.

Lemma rprint_advance (text : string) (w : world) (n : nat)
      (evs : list event) :
  rprint text (advance w n evs)
  = (Ok tt, advance w n (evs ++ [EvPrint text])).
Proof. unfold rprint, emit. now rewrite logged_advance. Qed.

Lemma execute_advance {B} (command : list string) (k : bool * string -> M B)
      (w : world) (n : nat) (evs : list event) :
  (r <- execute_git_command command ;; k r) (advance w n evs) =
  match git_oracle w (git_cmds (log w) ++ git_cmds evs) command with
  | Exited0 out =>
      k (true, PyStr.strip out) (advance w n (evs ++ [EvGit command]))
  | ExitedNonZero err =>
      k (false, PyStr.strip err) (advance w n (evs ++ [EvGit command]))
  | NotStarted => (Raise OSError, advance w n (evs ++ [EvGit command]))
  end.
Proof.
  unfold bind. rewrite execute_git_command_run, logged_advance.
  cbn [advance git_oracle log]. rewrite git_cmds_app.
  destruct (git_oracle w (git_cmds (log w) ++ git_cmds evs) command);
    reflexivity.
Qed.

Lemma skipn_nth_error {A} (l : list A) (n : nat) (a : A) :
  nth_error l n = Some a -> skipn n l = a :: skipn (S n) l.
Proof.
  revert l. induction n as [|n IH]; intros [|x l]; simpl; try discriminate.
  - now intros [= ->].
  - intros H. now rewrite (IH l H).
Qed.

Lemma prompt_list_advance (name message : string) (choices : list string)
      (w : world) (n i : nat) (evs : list event) (c : string) :
  nth_error (keys w) n = Some (Pick i) ->
  nth_error choices i = Some c ->
  prompt (QList name message choices) (advance w n evs)
  = (Ok c, advance w (S n) (evs ++ [EvPrompt (QList name message choices)])).
Proof.
  intros Hk Hc. unfold prompt. cbn [advance keys].
  rewrite (skipn_nth_error _ _ _ Hk), Hc.
  unfold advance. cbn. now rewrite app_assoc.
Qed.

Lemma prompt_text_advance (name message : string) (w : world) (n : nat)
      (evs : list event) (s : string) :
  nth_error (keys w) n = Some (Typed s) ->
  prompt (QText name message) (advance w n evs)
  = (Ok s, advance w (S n) (evs ++ [EvPrompt (QText name message)])).
Proof.
  intros Hk. unfold prompt. cbn [advance keys].
  rewrite (skipn_nth_error _ _ _ Hk).
  unfold advance. cbn. now rewrite app_assoc.
Qed.

Lemma mapM_values {A B} (f : A -> M B) (g : A -> B) (l : list A) (w : world) :
  (forall x, In x l -> f x w = (Ok (g x), w)) ->
  mapM f l w = (Ok (map g l), w).
Proof.
  induction l as [|x l IH]; intros H; [reflexivity|].
  cbn [mapM map]. unfold bind at 1. rewrite (H x (or_introl eq_refl)).
  unfold bind at 1. rewrite IH; [reflexivity|].
  intros y Hy. apply H. now right.
Qed.

Lemma menu_options_keys (option : string * string) :
  In option menu_options -> In (snd option) GitConfig.fields.
Proof.
  unfold menu_options. intros [<-|[<-|[<-|[<-|[<-|[]]]]]]; simpl; tauto.
Qed.

Lemma get_menu_choices_advance (config : GitConfig.t) (w : world) (n : nat)
      (evs : list event) :
  has_fields config = true ->
  get_menu_choices config (advance w n evs)
  = prompt (menu_question config)
           (advance w n (evs ++ [EvMenu config; EvClear])).
Proof.
  intros Hf. unfold get_menu_choices, clear_screen.
  rewrite !emit_advance, <- app_assoc. cbn [app].
  unfold bind at 1.
  rewrite (mapM_values _ (menu_row config)).
  - reflexivity.
  - intros [display key] Hin. unfold bind, get_option.
    rewrite (has_fields_get config key Hf (menu_options_keys _ Hin)).
    reflexivity.
Qed.

Lemma menu_turn (config : GitConfig.t) (w : world) (n i : nat)
      (evs : list event) (row : string) :
  has_fields config = true ->
  nth_error (keys w) n = Some (Pick i) ->
  nth_error (menu_rows config) i = Some row ->
  get_menu_choices config (advance w n evs)
  = (Ok row, advance w (S n) (evs ++ menu_events config)).
Proof.
  intros Hf Hk Hr. rewrite (get_menu_choices_advance config w n evs Hf).
  unfold menu_question.
  rewrite (prompt_list_advance _ _ _ w n i _ row Hk Hr), <- app_assoc.
  reflexivity.
Qed.

Lemma menu_loop_turn (fuel : nat) (config : GitConfig.t)
      (current_branch : string) (w : world) (n i : nat) (evs : list event)
      (row : string) :
  has_fields config = true ->
  nth_error (keys w) n = Some (Pick i) ->
  nth_error (menu_rows config) i = Some row ->
  menu_loop (S fuel) config current_branch (advance w n evs)
  = match lookup (action_of row) option_mapping with
    | Some (key, message) =>
        value <- (if PyStr.contains "branch" key
                  then handle_branch_choice current_branch
                  else handle_text_input message key) ;;
        menu_loop fuel (GitConfig.update_option key value config)
                  current_branch
    | None =>
        if (action_of row =? "Review and Create PR")%string then
          confirmed <- review_config config ;;
          if confirmed then create_pr config
          else menu_loop fuel config current_branch
        else ret tt
    end (advance w (S n) (evs ++ menu_events config)).
Proof.
  intros Hf Hk Hr. cbn [menu_loop]. unfold bind at 1.
  now rewrite (menu_turn config w n i evs row Hf Hk Hr).
Qed.

Lemma menu_loop_exit (fuel : nat) (config : GitConfig.t)
      (current_branch : string) (w : world) (n i : nat) (evs : list event) :
  has_fields config = true ->
  nth_error (keys w) n = Some (Pick i) ->
  i = 0 \/ i = 6 ->
  menu_loop (S fuel) config current_branch (advance w n evs)
  = (Ok tt, advance w (S n) (evs ++ menu_events config)).
Proof.
  intros Hf Hk [-> | ->].
  - rewrite (menu_loop_turn fuel config current_branch w n 0 evs
               (menu_row config ("Source Branch (current)", "source_branch"))
               Hf Hk eq_refl).
    rewrite (menu_rows_action config 0 _ eq_refl). reflexivity.
  - rewrite (menu_loop_turn fuel config current_branch w n 6 evs "Exit"
               Hf Hk eq_refl).
    reflexivity.
Qed.

Lemma main_interactive_run
      (target_branch commit_message pr_title pr_description : option string)
      (w : world) (out : string) :
  next_result w git_show_current = Exited0 out ->
  PyStr.strip out <> "" ->
  main target_branch commit_message pr_title pr_description true w
  = menu_loop (S (List.length (keys w)))
      (GitConfig.update_option "source_branch" (PyStr.strip out)
                               GitConfig.init)
      (PyStr.strip out) (advance w 0 [EvGit git_show_current]).
Proof.
  intros R Hb.
  assert (Ht : PyStr.truthy (PyStr.strip out) = true).
  { destruct (PyStr.strip out); [congruence | reflexivity]. }
  rewrite (main_run _ _ _ _ true w out R Ht). reflexivity.
Qed.

(** X10.  Picking [Exit] at the menu ends the loop at once, and so
    does picking the row of the source branch, which stands for no
    action of the menu: the menu is shown once, one answer is read,
    no git command runs and the executor is not entered.  When this
    is the first answer of an interactive run, the whole program has
    run one git command, the query of the current branch. *)
Theorem menu_exit_runs_nothing :
  (forall fuel config current_branch w i,
      has_fields config = true ->
      nth_error (keys w) 0 = Some (Pick i) ->
      i = 0 \/ i = 6 ->
      menu_loop (S fuel) config current_branch w
      = (Ok tt, advance w 1 (menu_events config)))
  /\ (forall target_branch commit_message pr_title pr_description w out i,
        next_result w git_show_current = Exited0 out ->
        PyStr.strip out <> "" ->
        nth_error (keys w) 0 = Some (Pick i) ->
        i = 0 \/ i = 6 ->
        outcome_of (main target_branch commit_message pr_title
                         pr_description true) w = Ok tt
        /\ emitted (main target_branch commit_message pr_title
                         pr_description true) w
           = EvGit git_show_current
               :: menu_events
                    (GitConfig.update_option "source_branch" (PyStr.strip out)
                                             GitConfig.init)).
Proof.
  split.
  - intros fuel config cur w i Hf Hk Hi.
    rewrite <- (advance_start w) at 1.
    now rewrite (menu_loop_exit fuel config cur w 0 i [] Hf Hk Hi).
  - intros tb cm pt pd w out i R Hb Hk Hi.
    pose proof (main_interactive_run tb cm pt pd w out R Hb) as Hm.
    assert (Hf : has_fields
                   (GitConfig.update_option "source_branch" (PyStr.strip out)
                                            GitConfig.init) = true)
      by reflexivity.
    rewrite (menu_loop_exit _ _ _ w 0 i _ Hf Hk Hi) in Hm.
    unfold outcome_of, emitted, world_after. rewrite Hm.
    split; [reflexivity|]. cbn [snd advance log].
    now rewrite skipn_app_exact.
Qed.

Lemma menu_exit_runs_nothing_witness :
  menu_loop 1 example_config "dev1" (scripted_world [] [Pick 6])
  = (Ok tt, advance (scripted_world [] [Pick 6]) 1
              (menu_events example_config))
  /\ outcome_of (main None None None None true)
       (scripted_world [Exited0 "dev1"] [Pick 0]) = Ok tt.
Proof.
  destruct menu_exit_runs_nothing as [Hloop Hmain].
  split.
  - apply (Hloop 0 example_config "dev1" (scripted_world [] [Pick 6]) 6);
      [reflexivity | reflexivity | right; reflexivity].
  - apply (Hmain None None None None
             (scripted_world [Exited0 "dev1"] [Pick 0]) "dev1" 0);
      [reflexivity | discriminate | reflexivity | left; reflexivity].
Defined.

Lemma handle_text_input_advance (message key : string) (w : world) (n : nat)
      (evs : list event) (s : string) :
  nth_error (keys w) n = Some (Typed s) ->
  handle_text_input message key (advance w n evs)
  = (Ok s, advance w (S n)
             (evs ++ [EvClear; EvPrompt (QText key message)])).
Proof.
  intros Hk. unfold handle_text_input, clear_screen.
  rewrite emit_advance, (prompt_text_advance _ _ w n _ s Hk), <- app_assoc.
  reflexivity.
Qed.

Lemma menu_loop_text (fuel : nat) (config : GitConfig.t)
      (current_branch : string) (w : world) (n i : nat) (evs : list event)
      (key message s : string) :
  has_fields config = true ->
  In (i, (key, message)) text_rows ->
  nth_error (keys w) n = Some (Pick i) ->
  nth_error (keys w) (S n) = Some (Typed s) ->
  menu_loop (S fuel) config current_branch (advance w n evs)
  = menu_loop fuel (GitConfig.update_option key s config) current_branch
      (advance w (S (S n))
         (evs ++ menu_events config
              ++ [EvClear; EvPrompt (QText key message)])).
Proof.
  intros Hf Hin Hk Hs.
  assert (Hrow : exists row, nth_error (menu_rows config) i = Some row
                             /\ lookup (action_of row) option_mapping
                                = Some (key, message)
                             /\ PyStr.contains "branch" key = false).
  { destruct Hin as [H|[H|[H|[]]]]; injection H as <- <- <-;
      eexists; (split; [reflexivity|]);
      unfold menu_row; cbn [fst snd];
      erewrite menu_row_action by (simpl; eauto 10); split; reflexivity. }
  destruct Hrow as (row & Hr & Hl & Hc).
  rewrite (menu_loop_turn fuel config current_branch w n i evs row Hf Hk Hr).
  rewrite Hl, Hc. unfold bind at 1.
  rewrite (handle_text_input_advance message key w (S n) _ s Hs).
  now rewrite <- app_assoc.
Qed.

(** X11.  A text row of the menu (commit message, title, description)
    asks one question and stores the answer in its field exactly as
    it was typed, without trimming and without refusing an empty
    text; the other fields are not touched and the loop goes on. *)
Theorem menu_text_is_stored_verbatim :
  forall fuel config current_branch w i key message s,
    has_fields config = true ->
    In (i, (key, message)) text_rows ->
    nth_error (keys w) 0 = Some (Pick i) ->
    nth_error (keys w) 1 = Some (Typed s) ->
    menu_loop (S fuel) config current_branch w
    = menu_loop fuel (GitConfig.update_option key s config) current_branch
        (advance w 2
           (menu_events config ++ [EvClear; EvPrompt (QText key message)]))
    /\ field (GitConfig.update_option key s config) key = s
    /\ (forall k, k <> key ->
                  field (GitConfig.update_option key s config) k
                  = field config k).
Proof.
  intros fuel config cur w i key message s Hf Hin Hk Hs.
  split; [|split].
  - rewrite <- (advance_start w) at 1.
    now rewrite (menu_loop_text fuel config cur w 0 i [] key message s
                   Hf Hin Hk Hs).
  - unfold field. now rewrite get_option_update_same.
  - intros k Hne. now apply field_update_other.
Qed.

Lemma menu_text_is_stored_verbatim_witness :
  field (GitConfig.update_option "commit_message" "  " example_config)
        "commit_message" = "  ".
Proof.
  apply (menu_text_is_stored_verbatim 1 example_config "dev1"
           (scripted_world [] [Pick 2; Typed "  "; Pick 6])
           2 "commit_message" "Enter commit message" "  ").
  - reflexivity.
  - left. reflexivity.
  - reflexivity.
  - reflexivity.
Defined.

(** ** The review step *)

Lemma forM_rprint_advance {A} (l : list A) (g : A -> string) (w : world)
      (n : nat) :
  forall evs,
    forM_ l (fun x => rprint (g x)) (advance w n evs)
    = (Ok tt, advance w n (evs ++ map (fun x => EvPrint (g x)) l)).
Proof.
  induction l as [|x l IH]; intros evs; cbn [forM_ map].
  - now rewrite app_nil_r.
  - unfold rprint at 1. rewrite emit_advance, IH, <- app_assoc. reflexivity.
Qed.

Lemma review_config_advance (config : GitConfig.t) (w : world) (n j : nat)
      (evs : list event) (answer : string) :
  nth_error (keys w) n = Some (Pick j) ->
  nth_error ["Yes, create PR"; "No, return to menu"] j = Some answer ->
  review_config config (advance w n evs)
  = (Ok (PyStr.startswith "Yes" answer),
     advance w (S n) (evs ++ review_events (script_name w) config)).
Proof.
  intros Hk Ha. unfold review_config, clear_screen.
  rewrite emit_advance. unfold rprint at 1. rewrite emit_advance.
  rewrite (bind_ok _ _ _ _ _ (forM_rprint_advance config _ w n _)).
  unfold argv0 at 1. unfold bind at 1. cbn [advance script_name].
  fold (advance w n
          ((evs ++ [EvClear]) ++ [EvPrint "[bold]Current configuration:[/]"]
           ++ map (fun x => EvPrint ("[cyan]" ++ fst x ++ ":[/] [green]"
                                     ++ snd x ++ "[/]")) config)).
  unfold rprint. rewrite !emit_advance. unfold bind.
  rewrite (prompt_list_advance _ _ _ w n j _ answer Hk Ha).
  unfold ret, review_events, confirm_question.
  rewrite <- !app_assoc. reflexivity.
Qed.



(** ** The choice of the target branch *)

Lemma handle_branch_choice_advance (current_branch : string) (w : world)
      (n : nat) (evs : list event) :
  handle_branch_choice current_branch (advance w n evs) =
  match git_oracle w (git_cmds (log w) ++ git_cmds evs) git_branch_r with
  | Exited0 out =>
      match filter (fun branch =>
                      is_valid_target_branch current_branch branch)
                   (parse_remote_branches (PyStr.strip out)) with
      | [] =>
          (Ok "", advance w n (evs ++ [EvClear; EvGit git_branch_r;
                                       EvPrint no_target_error]))
      | offered =>
          prompt (QList "branch" "Select target branch" offered)
                 (advance w n (evs ++ [EvClear; EvGit git_branch_r]))
      end
  | ExitedNonZero _ =>
      (Ok "", advance w n (evs ++ [EvClear; EvGit git_branch_r;
                                   EvPrint no_target_error]))
  | NotStarted =>
      (Raise OSError, advance w n (evs ++ [EvClear; EvGit git_branch_r]))
  end.
Proof.
  unfold handle_branch_choice, clear_screen, get_remote_branches.
  rewrite emit_advance, bind_assoc, execute_advance.
  rewrite git_cmds_app. cbn [git_cmds]. rewrite app_nil_r.
  fold git_branch_r.
  destruct (git_oracle w (git_cmds (log w) ++ git_cmds evs) git_branch_r)
    as [out|err|]; cbn [negb]; rewrite <- ?app_assoc; cbn [app];
    [|rewrite bind_ret; cbn [filter]; unfold rprint;
      rewrite emit_advance, <- app_assoc; reflexivity
     |reflexivity].
  rewrite bind_ret.
  destruct (filter _ (parse_remote_branches (PyStr.strip out))); [|reflexivity].
  unfold rprint. rewrite emit_advance, <- app_assoc. reflexivity.
Qed.

Lemma prompt_list_in (name message : string) (choices : list string)
      (w : world) (b : string) :
  outcome_of (prompt (QList name message choices)) w = Ok b -> In b choices.
Proof.
  unfold outcome_of, prompt. destruct (keys w) as [|[i|s] rest];
    cbn; try discriminate.
  destruct (nth_error choices i) eqn:E; cbn; [|discriminate].
  intros [= <-]. now apply nth_error_In in E.
Qed.

Lemma filter_all {A} (f : A -> bool) (l : list A) :
  (forall x, In x l -> f x = true) -> filter f l = l.
Proof.
  induction l as [|x l IH]; intros H; [reflexivity|]. simpl.
  rewrite (H x (or_introl eq_refl)), IH; [reflexivity|].
  intros y Hy. apply H. now right.
Qed.

Lemma filter_none {A} (f : A -> bool) (l : list A) :
  (forall x, In x l -> f x = false) -> filter f l = [].
Proof.
  induction l as [|x l IH]; intros H; [reflexivity|]. simpl.
  rewrite (H x (or_introl eq_refl)). apply IH.
  intros y Hy. apply H. now right.
Qed.

(** X13.  A branch that [handle_branch_choice] returns is either the
    empty string or one of the remote branches that git listed and a
    valid target for the current branch: an invalid target can never
    be chosen.  When the listing fails, or when no listed branch is
    valid, it prints the error and returns the empty string without
    asking anything.  When the current branch does not begin with
    lowercase letters directly followed by a digit, every listed
    branch is offered; a current branch that does begin so, such as
    [dev1-hotfix], is treated like the environment it begins with. *)
Theorem target_choice_is_valid :
  (forall current_branch w b,
      outcome_of (handle_branch_choice current_branch) w = Ok b ->
      b = ""
      \/ (is_valid_target_branch current_branch b = true
          /\ exists out,
               next_result w git_branch_r = Exited0 out
               /\ In b (parse_remote_branches (PyStr.strip out))))
  /\ (forall current_branch w,
        ((exists err, next_result w git_branch_r = ExitedNonZero err)
         \/ (exists out,
               next_result w git_branch_r = Exited0 out
               /\ forall b, In b (parse_remote_branches (PyStr.strip out)) ->
                            is_valid_target_branch current_branch b = false)) ->
        handle_branch_choice current_branch w
        = (Ok "", advance w 0 [EvClear; EvGit git_branch_r;
                               EvPrint no_target_error]))
  /\ (forall current_branch branches,
        ~ environment_shaped current_branch ->
        filter (fun branch => is_valid_target_branch current_branch branch)
               branches = branches).
Proof.
  split.
  { intros cur w b. rewrite <- (advance_start w) at 1.
    unfold outcome_of. rewrite handle_branch_choice_advance.
    cbn [git_cmds]. rewrite app_nil_r. fold (next_result w git_branch_r).
    destruct (next_result w git_branch_r) as [out|err|]; cbn [fst];
      [|intros [= <-]; now left | discriminate].
    destruct (filter _ (parse_remote_branches (PyStr.strip out)))
      as [|x offered] eqn:E; cbn [fst]; [intros [= <-]; now left|].
    intros H. apply prompt_list_in in H. rewrite <- E in H.
    apply filter_In in H as [Hin Hv].
    right. split; [exact Hv|]. now exists out. }
  split.
  { intros cur w H. rewrite <- (advance_start w) at 1.
    rewrite handle_branch_choice_advance.
    cbn [git_cmds]. rewrite app_nil_r. fold (next_result w git_branch_r).
    destruct H as [[err ->] | (out & -> & Hnone)]; [reflexivity|].
    now rewrite (filter_none
                   (fun branch => is_valid_target_branch cur branch)
                   _ Hnone). }
  intros cur branches Hn. apply filter_all. intros b _.
  unfold is_valid_target_branch. now rewrite (re_match_env_none _ Hn).
Qed.

Lemma target_choice_is_valid_witness :
  ("uat2" = ""
   \/ (is_valid_target_branch "dev1" "uat2" = true
       /\ exists out,
            next_result
              (scripted_world [Exited0 ("origin/sbx1" ++ nl ++ "origin/uat2")]
                              [Pick 0]) git_branch_r = Exited0 out
            /\ In "uat2" (parse_remote_branches (PyStr.strip out))))
  /\ handle_branch_choice "uat1"
       (scripted_world [Exited0 ("origin/sbx1" ++ nl ++ "origin/dev2")] [])
     = (Ok "",
        advance
          (scripted_world [Exited0 ("origin/sbx1" ++ nl ++ "origin/dev2")] [])
          0 [EvClear; EvGit git_branch_r; EvPrint no_target_error])
  /\ filter (fun branch => is_valid_target_branch "feature-x" branch)
            ["dev1"; "main"] = ["dev1"; "main"].
Proof.
  destruct target_choice_is_valid as (Hvalid & Hnone & Hall).
  split; [|split].
  - apply (Hvalid "dev1"
             (scripted_world [Exited0 ("origin/sbx1" ++ nl ++ "origin/uat2")]
                             [Pick 0])).
    reflexivity.
  - apply Hnone. right.
    exists ("origin/sbx1" ++ nl ++ "origin/dev2").
    split; [reflexivity|].
    intros b [<-|[<-|[]]]; reflexivity.
  - apply Hall. exact feature_x_not_shaped.
Defined.

(** X14.  In the menu, the row of the target branch stores whatever
    [handle_branch_choice] returns: when the listing of the remote
    branches fails, the target branch is set to the empty string, so a
    target that was chosen before is lost. *)
Theorem failed_listing_clears_the_target :
  forall fuel config current_branch w err,
    has_fields config = true ->
    nth_error (keys w) 0 = Some (Pick 1) ->
    next_result w git_branch_r = ExitedNonZero err ->
    menu_loop (S fuel) config current_branch w
    = menu_loop fuel (GitConfig.update_option "target_branch" "" config)
        current_branch
        (advance w 1
           (menu_events config
            ++ [EvClear; EvGit git_branch_r; EvPrint no_target_error]))
    /\ field (GitConfig.update_option "target_branch" "" config)
             "target_branch" = "".
Proof.
  intros fuel config cur w err Hf Hk R. split.
  - rewrite <- (advance_start w) at 1.
    rewrite (menu_loop_turn fuel config cur w 0 1 []
               (menu_row config ("Target Branch", "target_branch"))
               Hf Hk eq_refl).
    unfold menu_row at 1. cbn [fst snd].
    erewrite menu_row_action by (simpl; eauto 10).
    cbn [lookup option_mapping String.eqb Ascii.eqb Bool.eqb].
    change (PyStr.contains "branch" "target_branch") with true. cbv iota.
    unfold bind at 1. rewrite handle_branch_choice_advance.
    cbn [git_cmds app menu_events]. rewrite app_nil_r.
    fold (next_result w git_branch_r). rewrite R. reflexivity.
  - unfold field. now rewrite get_option_update_same.
Qed.

Lemma failed_listing_clears_the_target_witness :
  field (GitConfig.update_option "target_branch" ""
           (GitConfig.update_option "target_branch" "uat1" example_config))
        "target_branch" = "".
Proof.
  apply (failed_listing_clears_the_target 0
           (GitConfig.update_option "target_branch" "uat1" example_config)
           "dev1" (scripted_world [ExitedNonZero "fatal"] [Pick 1]) "fatal");
    reflexivity.
Defined.

(** ** The end of a successful run *)



(** ** How the options of the command line are bound *)

Lemma field_set_if_given_same (key : string) (x : option string)
      (o : GitConfig.t) :
  field o key = "" -> field (set_if_given key x o) key = given_or_empty x.
Proof.
  intros H. unfold set_if_given. destruct x as [s|]; [|exact H].
  destruct s as [|c s]; [exact H|]. cbn [PyStr.truthy given_or_empty].
  unfold field. now rewrite get_option_update_same.
Qed.

Lemma set_if_given_keys (key : string) (x : option string) (o : GitConfig.t) :
  In key (map fst o) -> map fst (set_if_given key x o) = map fst o.
Proof.
  intros H. unfold set_if_given. destruct x as [s|]; [|reflexivity].
  destruct (PyStr.truthy s); [|reflexivity].
  now apply update_option_keys_present.
Qed.

(** X16.  In non-interactive mode, once the current branch is known,
    the executor is invoked with the five fields in their order, the
    source branch being the current branch and every other field the
    value of its option exactly as it was given, or the empty string
    when the option is absent or empty; the target branch is not
    checked against the order of the environments.  In interactive
    mode the values of the options are not used at all. *)
Theorem options_are_bound_unchecked :
  (forall target_branch commit_message pr_title pr_description w out,
      next_result w git_show_current = Exited0 out ->
      PyStr.strip out <> "" ->
      exists config,
        main target_branch commit_message pr_title pr_description false w
        = create_pr config (logged w (EvGit git_show_current))
        /\ map fst config = GitConfig.fields
        /\ field config "source_branch" = PyStr.strip out
        /\ field config "target_branch" = given_or_empty target_branch
        /\ field config "commit_message" = given_or_empty commit_message
        /\ field config "pr_title" = given_or_empty pr_title
        /\ field config "pr_description" = given_or_empty pr_description)
  /\ (forall target_branch commit_message pr_title pr_description w,
        main target_branch commit_message pr_title pr_description true w
        = main None None None None true w).
Proof.
  split; [|reflexivity].
  intros tb cm pt pd w out R Hb.
  assert (Ht : PyStr.truthy (PyStr.strip out) = true).
  { destruct (PyStr.strip out); [congruence | reflexivity]. }
  eexists. split; [exact (main_run tb cm pt pd false w out R Ht)|].
  cbv zeta.
  set (c0 := GitConfig.update_option "source_branch" (PyStr.strip out)
               GitConfig.init).
  assert (K0 : map fst c0 = GitConfig.fields) by reflexivity.
  set (c1 := set_if_given "target_branch" tb c0).
  assert (K1 : map fst c1 = GitConfig.fields)
    by (unfold c1; rewrite set_if_given_keys; [exact K0|];
        rewrite K0; simpl; tauto).
  set (c2 := set_if_given "commit_message" cm c1).
  assert (K2 : map fst c2 = GitConfig.fields)
    by (unfold c2; rewrite set_if_given_keys; [exact K1|];
        rewrite K1; simpl; tauto).
  set (c3 := set_if_given "pr_title" pt c2).
  assert (K3 : map fst c3 = GitConfig.fields)
    by (unfold c3; rewrite set_if_given_keys; [exact K2|];
        rewrite K2; simpl; tauto).
  split.
  { rewrite set_if_given_keys; [exact K3|]. rewrite K3. simpl. tauto. }
  assert (F0 : forall k, k <> "source_branch" -> In k GitConfig.fields ->
                         field c0 k = "").
  { intros k Hk Hin. unfold c0. rewrite field_update_other by exact Hk.
    simpl in Hin. destruct Hin as [<-|[<-|[<-|[<-|[<-|[]]]]]];
      [congruence | reflexivity ..]. }
  unfold c3, c2, c1.
  split.
  { now rewrite !field_set_if_given_other by discriminate. }
  split.
  { rewrite 3!field_set_if_given_other by discriminate.
    apply field_set_if_given_same, F0; [discriminate | simpl; tauto]. }
  split.
  { rewrite 2!field_set_if_given_other by discriminate.
    apply field_set_if_given_same.
    rewrite field_set_if_given_other by discriminate.
    apply F0; [discriminate | simpl; tauto]. }
  split.
  { rewrite field_set_if_given_other by discriminate.
    apply field_set_if_given_same.
    rewrite 2!field_set_if_given_other by discriminate.
    apply F0; [discriminate | simpl; tauto]. }
  apply field_set_if_given_same.
  rewrite 3!field_set_if_given_other by discriminate.
  apply F0; [discriminate | simpl; tauto].
Qed.

Lemma options_are_bound_unchecked_witness :
  exists config,
    main (Some "sbx9") None None None false (scripted_world [Exited0 "uat1"] [])
    = create_pr config
        (logged (scripted_world [Exited0 "uat1"] [])
                (EvGit git_show_current))
    /\ map fst config = GitConfig.fields
    /\ field config "source_branch" = PyStr.strip "uat1"
    /\ field config "target_branch" = given_or_empty (Some "sbx9")
    /\ field config "commit_message" = given_or_empty None
    /\ field config "pr_title" = given_or_empty None
    /\ field config "pr_description" = given_or_empty None.
Proof.
  apply (proj1 options_are_bound_unchecked (Some "sbx9") None None None
           (scripted_world [Exited0 "uat1"] []) "uat1").
  - reflexivity.
  - discriminate.
Defined.

(** ** The exceptions that can escape *)

Section Escapes.

Variable allowed : exn -> Prop.

Lemma escapes_ret {A} (a : A) : escapes allowed (ret a).
Proof. intros w e. discriminate. Qed.

Lemma escapes_bind {A B} (m : M A) (k : A -> M B) :
  escapes allowed m -> (forall a, escapes allowed (k a)) ->
  escapes allowed (bind m k).
Proof.
  intros Hm Hk w e. unfold outcome_of, bind.
  destruct (m w) as [[a|x] w1] eqn:E.
  - apply (Hk a w1).
  - cbn. intros [= <-]. apply (Hm w x). unfold outcome_of. now rewrite E.
Qed.

Lemma escapes_emit (ev : event) : escapes allowed (emit ev).
Proof. intros w e. discriminate. Qed.

Lemma escapes_forM_ {A} (l : list A) (f : A -> M unit) :
  (forall x, escapes allowed (f x)) -> escapes allowed (forM_ l f).
Proof.
  intros H. induction l as [|x l IH]; simpl; [apply escapes_ret|].
  apply escapes_bind; [apply H | intros _; exact IH].
Qed.

Lemma escapes_state {A} (f : world -> A) :
  escapes allowed (fun w => (Ok (f w), w)).
Proof. intros w e. discriminate. Qed.

Hypothesis allowed_os : allowed OSError.
Hypothesis allowed_type : allowed TypeError.

Lemma escapes_execute_git_command (command : list string) :
  escapes allowed (execute_git_command command).
Proof.
  intros w e. unfold outcome_of. rewrite execute_git_command_run.
  destruct (git_oracle w (git_cmds (log w)) command); cbn;
    [discriminate | discriminate | now intros [= <-]].
Qed.

Lemma escapes_prompt (q : question) : escapes allowed (prompt q).
Proof.
  intros w e. unfold outcome_of, prompt.
  destruct (keys w) as [|a rest]; cbn; [now intros [= <-]|].
  destruct q as [name message choices|name message], a as [n|s];
    try destruct (nth_error choices n); cbn;
    first [discriminate | now intros [= <-]].
Qed.

Lemma escapes_get_option (config : GitConfig.t) (key : string) :
  has_fields config = true -> In key GitConfig.fields ->
  escapes allowed (get_option config key).
Proof.
  intros Hf Hk w e. unfold outcome_of, get_option.
  rewrite (has_fields_get config key Hf Hk). discriminate.
Qed.

Ltac escapes_steps :=
  repeat first
    [ apply escapes_ret
    | apply escapes_emit
    | apply escapes_execute_git_command
    | apply (escapes_state script_name)
    | apply escapes_prompt
    | apply escapes_forM_
    | apply escapes_bind
    | match goal with
      | |- forall _ : bool * string, _ => intros [[|] ?]; cbn [negb]
      | |- forall _, escapes _ _ => intro
      | |- escapes _ (if ?c then _ else _) => destruct c
      | |- escapes _ (match ?l with [] => _ | _ :: _ => _ end) => destruct l
      end ].

Lemma escapes_create_pr (config : GitConfig.t) :
  has_fields config = true -> escapes allowed (create_pr config).
Proof.
  intros Hf w e. rewrite (create_pr_outcome config w Hf).
  destruct (step_result w config 0), (step_result w config 1),
    (step_result w config 2), (step_result w config 3);
    cbn [executor_run fst];
    try match goal with
        | |- context [if ?c then _ else _] => destruct c
        end;
    cbn [fst]; first [discriminate | now intros [= <-]].
Qed.

Lemma escapes_review_config (config : GitConfig.t) :
  escapes allowed (review_config config).
Proof.
  unfold review_config, clear_screen, rprint, argv0. escapes_steps.
Qed.

Lemma escapes_handle_branch_choice (current_branch : string) :
  escapes allowed (handle_branch_choice current_branch).
Proof.
  unfold handle_branch_choice, get_remote_branches, clear_screen, rprint.
  escapes_steps.
Qed.

Lemma escapes_handle_text_input (message key : string) :
  escapes allowed (handle_text_input message key).
Proof. unfold handle_text_input, clear_screen. escapes_steps. Qed.

Lemma escapes_get_menu_choices (config : GitConfig.t) :
  has_fields config = true -> escapes allowed (get_menu_choices config).
Proof.
  intros Hf w e. unfold outcome_of.
  rewrite <- (advance_start w), (get_menu_choices_advance config w 0 [] Hf).
  apply escapes_prompt.
Qed.

Hypothesis allowed_fuel : allowed OutOfFuel.

Lemma escapes_menu_loop (current_branch : string) (fuel : nat) :
  forall config,
    has_fields config = true ->
    escapes allowed (menu_loop fuel config current_branch).
Proof.
  induction fuel as [|fuel IH]; intros config Hf; cbn [menu_loop].
  - intros w e. cbn. now intros [= <-].
  - apply escapes_bind; [now apply escapes_get_menu_choices|].
    intros choice. destruct (lookup _ option_mapping) as [[key message]|].
    + apply escapes_bind.
      * destruct (PyStr.contains "branch" key);
          [apply escapes_handle_branch_choice
          | apply escapes_handle_text_input].
      * intros value. apply IH. now apply has_fields_update.
    + destruct (String.eqb _ "Review and Create PR"); [|apply escapes_ret].
      apply escapes_bind; [apply escapes_review_config|].
      intros [|]; [now apply escapes_create_pr | now apply IH].
Qed.

End Escapes.

Lemma has_fields_set_if_given (key : string) (x : option string)
      (o : GitConfig.t) :
  has_fields o = true -> has_fields (set_if_given key x o) = true.
Proof.
  intros H. unfold set_if_given. destruct x as [s|]; [|exact H].
  destruct (PyStr.truthy s); [now apply has_fields_update | exact H].
Qed.

(** X17.  Whatever git and the person at the keyboard do, [main]
    never ends with a [KeyError], because the configuration keeps its
    five fields, and never with a [CalledProcessError], because the
    error exit of a git command is always caught and turned into a
    failure flag; the same holds for the executor alone on a
    configuration that holds the five fields. *)
Theorem no_fault_of_script_escapes :
  (forall target_branch commit_message pr_title pr_description interactive
          w e,
      outcome_of (main target_branch commit_message pr_title pr_description
                       interactive) w = Raise e ->
      ~ fault_of_script e)
  /\ (forall config w e,
        has_fields config = true ->
        outcome_of (create_pr config) w = Raise e -> ~ fault_of_script e).
Proof.
  assert (Hos : ~ fault_of_script OSError)
    by (intros [[k H]|[x H]]; discriminate).
  assert (Hty : ~ fault_of_script TypeError)
    by (intros [[k H]|[x H]]; discriminate).
  assert (Hfu : ~ fault_of_script OutOfFuel)
    by (intros [[k H]|[x H]]; discriminate).
  split.
  - intros tb cm pt pd interactive w e.
    unfold outcome_of, main. unfold bind at 1.
    rewrite get_current_branch_run.
    destruct (next_result w git_show_current) as [out|err|]; cbn [fst snd].
    + destruct (PyStr.truthy (PyStr.strip out)); cbn [negb];
        [|discriminate].
      destruct interactive; cbn [negb].
      * unfold bind, turns_left.
        apply (escapes_menu_loop (fun x => ~ fault_of_script x) Hos Hty Hfu).
        reflexivity.
      * apply (escapes_create_pr (fun x => ~ fault_of_script x) Hos).
        now repeat apply has_fields_set_if_given.
    + discriminate.
    + now intros [= <-].
  - intros config w e Hf.
    now apply (escapes_create_pr (fun x => ~ fault_of_script x) Hos).
Qed.

Lemma no_fault_of_script_escapes_witness :
  ~ fault_of_script OSError /\ ~ fault_of_script OSError.
Proof.
  destruct no_fault_of_script_escapes as [Hmain Hexec].
  split.
  - apply (Hmain None None None None true no_git). reflexivity.
  - apply (Hexec example_config no_git); reflexivity.
Defined.

(** ** A run that edits nothing *)

Lemma menu_loop_review (fuel : nat) (config : GitConfig.t)
      (current_branch : string) (w : world) (n j : nat) (evs : list event)
      (answer : string) :
  has_fields config = true ->
  nth_error (keys w) n = Some (Pick 5) ->
  nth_error (keys w) (S n) = Some (Pick j) ->
  nth_error ["Yes, create PR"; "No, return to menu"] j = Some answer ->
  menu_loop (S fuel) config current_branch (advance w n evs)
  = (if PyStr.startswith "Yes" answer then create_pr config
     else menu_loop fuel config current_branch)
      (advance w (S (S n))
         (evs ++ menu_events config
              ++ review_events (script_name w) config)).
Proof.
  intros Hf H0 H1 Ha.
  rewrite (menu_loop_turn fuel config current_branch w n 5 evs
             "Review and Create PR" Hf H0 eq_refl).
  change (lookup (action_of "Review and Create PR") option_mapping)
    with (@None (string * string)).
  change (action_of "Review and Create PR" =? "Review and Create PR")%string
    with true.
  cbv iota. unfold bind at 1.
  rewrite (review_config_advance config w (S n) j _ answer H1 Ha).
  now rewrite <- app_assoc.
Qed.

(** X18.  Nothing in the interactive path asks for a commit message
    before the executor runs: when the person goes straight to the
    review and confirms, the executor is invoked with the fresh
    configuration, and the commit it issues has the empty message;
    whether that is accepted is left to git. *)
Theorem unedited_run_commits_empty_message :
  forall target_branch commit_message pr_title pr_description w out,
    next_result w git_show_current = Exited0 out ->
    PyStr.strip out <> "" ->
    nth_error (keys w) 0 = Some (Pick 5) ->
    nth_error (keys w) 1 = Some (Pick 0) ->
    main target_branch commit_message pr_title pr_description true w
    = create_pr
        (GitConfig.update_option "source_branch" (PyStr.strip out)
                                 GitConfig.init)
        (advance w 2
           (EvGit git_show_current
            :: menu_events
                 (GitConfig.update_option "source_branch" (PyStr.strip out)
                                          GitConfig.init)
            ++ review_events (script_name w)
                 (GitConfig.update_option "source_branch" (PyStr.strip out)
                                          GitConfig.init)))
    /\ executor_steps
         (GitConfig.update_option "source_branch" (PyStr.strip out)
                                  GitConfig.init)
       = [ git_add; git_commit ""; git_push (PyStr.strip out); git_get_url ].
Proof.
  intros tb cm pt pd w out R Hb H0 H1. split; [|reflexivity].
  rewrite (main_interactive_run tb cm pt pd w out R Hb).
  assert (Hf : has_fields
                 (GitConfig.update_option "source_branch" (PyStr.strip out)
                                          GitConfig.init) = true)
    by reflexivity.
  now rewrite (menu_loop_review _ _ _ w 0 0 _ "Yes, create PR" Hf H0 H1
                 eq_refl).
Qed.

Lemma unedited_run_commits_empty_message_witness :
  executor_steps
    (GitConfig.update_option "source_branch" (PyStr.strip "dev1")
                             GitConfig.init)
  = [ git_add; git_commit ""; git_push (PyStr.strip "dev1"); git_get_url ].
Proof.
  apply (unedited_run_commits_empty_message None None None None
           (scripted_world [Exited0 "dev1"] [Pick 5; Pick 0]) "dev1").
  - reflexivity.
  - discriminate.
  - reflexivity.
  - reflexivity.
Defined.

(** ** Nothing is committed before the review is confirmed *)

Lemma guarded_app_quiet (e1 e2 : list event) :
  Forall quiet e1 -> guarded e2 -> guarded (e1 ++ e2).
Proof.
  intros H1 [H2 | (before & config & rest & -> & Hb & Hr)].
  - left. now apply Forall_app.
  - right. exists (e1 ++ before)%list, config, rest.
    split; [now rewrite app_assoc|].
    split; [now apply Forall_app | exact Hr].
Qed.

Lemma guards_of_emits {A} (m : M A) : emits quiet m -> guards m.
Proof.
  intros H w. destruct (H w) as (evs & L & F). exists evs.
  split; [exact L | now left].
Qed.

Lemma guards_bind {A B} (m : M A) (k : A -> M B) :
  emits quiet m -> (forall a, guards (k a)) -> guards (bind m k).
Proof.
  intros Hm Hk w. destruct (Hm w) as (e1 & L1 & F1).
  unfold world_after, bind in *.
  destruct (m w) as [[a|e] w1]; cbn [snd] in L1.
  - destruct (Hk a w1) as (e2 & L2 & G2). unfold world_after in L2.
    exists (e1 ++ e2)%list. rewrite L2, L1, app_assoc.
    split; [reflexivity | now apply guarded_app_quiet].
  - exists e1. split; [exact L1 | now left].
Qed.

Lemma emits_quiet_handle_branch_choice (current_branch : string) :
  emits quiet (handle_branch_choice current_branch).
Proof.
  intros w. unfold world_after.
  replace (handle_branch_choice current_branch w)
    with (handle_branch_choice current_branch (advance w 0 []))
    by now rewrite advance_start.
  rewrite handle_branch_choice_advance.
  cbn [git_cmds]. rewrite app_nil_r.
  destruct (git_oracle w (git_cmds (log w)) git_branch_r) as [out|err|].
  - destruct (filter _ (parse_remote_branches (PyStr.strip out)))
      as [|x offered].
    + eexists. split; [reflexivity|]. repeat constructor.
    + destruct (emits_prompt quiet (fun _ => I)
                  (QList "branch" "Select target branch" (x :: offered))
                  (advance w 0 ([] ++ [EvClear; EvGit git_branch_r])))
        as (evs & L & F).
      unfold world_after in L. rewrite L. cbn [advance log app].
      rewrite <- app_assoc. eexists. split; [reflexivity|].
      cbn [app]. repeat constructor. exact F.
  - eexists. split; [reflexivity|]. repeat constructor.
  - eexists. split; [reflexivity|]. repeat constructor.
Qed.

Lemma review_events_end (script : string) (config : GitConfig.t) :
  exists shown,
    review_events script config = (shown ++ [EvPrompt confirm_question])%list
    /\ Forall quiet shown.
Proof.
  exists ([EvClear; EvPrint "[bold]Current configuration:[/]"]
          ++ map (fun item =>
                    EvPrint ("[cyan]" ++ fst item ++ ":[/] [green]"
                             ++ snd item ++ "[/]")) config
          ++ [ EvPrint (nl ++ "[yellow]Non-interactive command:[/]");
               EvPrint ("[green]" ++ review_command script config
                        ++ "[/]") ])%list.
  split.
  - unfold review_events. rewrite <- !app_assoc. reflexivity.
  - apply Forall_app. split; [repeat constructor|].
    apply Forall_app. split; [|repeat constructor].
    apply Forall_forall. intros e He. apply in_map_iff in He as (x & <- & _).
    exact I.
Qed.

Lemma review_config_log (config : GitConfig.t) (w : world) :
  log (world_after (review_config config) w)
  = (log w ++ review_events (script_name w) config)%list.
Proof.
  destruct (emits_review_config (fun _ => True) (fun _ => I) I (fun _ => I)
              config w) as (evs & L & _).
  pose proof (review_config_emitted config w) as E.
  unfold emitted in E. rewrite L, skipn_app_exact in E. now rewrite L, E.
Qed.

Lemma create_pr_log (config : GitConfig.t) (w : world) :
  exists rest,
    log (world_after (create_pr config) w)
    = (log w ++ EvExecutor config :: rest)%list
    /\ Forall of_executor rest.
Proof.
  unfold create_pr.
  match goal with
  | |- context [world_after (emit _ ;;; ?k) w] =>
      assert (He : emits of_executor k)
  end.
  { repeat first
      [ apply emits_rprint; intros; exact I
      | apply emits_ret
      | apply emits_get_option
      | apply emits_get_bitbucket_url; intros; exact I
      | apply emits_execute_git_command; intros; exact I
      | apply emits_bind
      | match goal with
        | |- forall _ : bool * string, _ => intros [[|] ?]; cbn [negb]
        | |- forall _, emits _ _ => intro
        | |- emits _ (if ?c then _ else _) => destruct c
        end ]. }
  destruct (He (logged w (EvExecutor config))) as (es & Les & Fes).
  exists es. split; [|exact Fes].
  match goal with
  | |- log (world_after (emit _ ;;; ?k) w) = _ =>
      change (log (world_after k (logged w (EvExecutor config)))
              = (log w ++ EvExecutor config :: es)%list)
  end.
  rewrite Les. cbn [logged log]. now rewrite <- app_assoc.
Qed.

Lemma guards_review (config : GitConfig.t) (declined : M unit) :
  guards declined ->
  guards (confirmed <- review_config config ;;
          if confirmed then create_pr config else declined).
Proof.
  intros Hd w. pose proof (review_config_log config w) as L1.
  destruct (review_events_end (script_name w) config) as (shown & E & Fs).
  unfold world_after, bind in *.
  destruct (review_config config w) as [[[|]|e] w1]; cbn [snd] in L1.
  - destruct (create_pr_log config w1) as (rest & L2 & Fr).
    unfold world_after in L2. rewrite L2, L1, E, <- !app_assoc.
    eexists. split; [reflexivity|]. right.
    exists shown, config, rest.
    split; [reflexivity|]. split; [exact Fs | exact Fr].
  - destruct (Hd w1) as (e2 & L2 & G2). unfold world_after in L2.
    rewrite L2, L1, <- app_assoc. eexists. split; [reflexivity|].
    apply guarded_app_quiet; [|exact G2].
    rewrite E. apply Forall_app. split; [exact Fs | repeat constructor].
  - cbn [snd]. rewrite L1. eexists. split; [reflexivity|]. left.
    rewrite E. apply Forall_app. split; [exact Fs | repeat constructor].
Qed.

Lemma guards_menu_loop (current_branch : string) (fuel : nat) :
  forall config, guards (menu_loop fuel config current_branch).
Proof.
  induction fuel as [|fuel IH]; intros config; cbn [menu_loop].
  - apply guards_of_emits, emits_raise.
  - apply guards_bind.
    + apply emits_get_menu_choices; [exact I | intros; exact I | exact I].
    + intros choice.
      destruct (lookup _ option_mapping) as [[key message]|].
      * apply guards_bind; [|intros value; apply IH].
        destruct (PyStr.contains "branch" key);
          [apply emits_quiet_handle_branch_choice
          | apply emits_handle_text_input; [exact I | intros; exact I]].
      * destruct (String.eqb _ "Review and Create PR");
          [|apply guards_of_emits, emits_ret].
        apply guards_review, IH.
Qed.

Lemma executor_entries_app (l1 l2 : list event) :
  executor_entries (l1 ++ l2) = executor_entries l1 + executor_entries l2.
Proof.
  induction l1 as [|e l1 IH]; [reflexivity|].
  destruct e; cbn [app executor_entries]; now rewrite IH.
Qed.

Lemma quiet_no_entry (l : list event) :
  Forall quiet l -> executor_entries l = 0.
Proof.
  induction 1 as [|e l He Hl IH]; [reflexivity|].
  destruct e; cbn [executor_entries]; try exact IH. destruct He.
Qed.

Lemma of_executor_no_entry (l : list event) :
  Forall of_executor l -> executor_entries l = 0.
Proof.
  induction 1 as [|e l He Hl IH]; [reflexivity|].
  destruct e; cbn [executor_entries]; try exact IH; destruct He.
Qed.

Lemma guarded_at_most_once (evs : list event) :
  guarded evs -> executor_entries evs <= 1.
Proof.
  intros [H | (before & config & rest & -> & Hb & Hr)].
  - rewrite (quiet_no_entry _ H). lia.
  - rewrite executor_entries_app. cbn [executor_entries].
    rewrite (quiet_no_entry _ Hb), (of_executor_no_entry _ Hr). lia.
Qed.

(** X19.  In interactive mode nothing is staged, committed or pushed
    before the review is confirmed.  In every run of the menu loop the
    executor is entered at most once; when it is entered, the event
    just before is the question of the review step, every git command
    before is the listing of the remote branches, and what follows is
    the executor's own commands and messages only: no second entry,
    no menu and no prompt.  For [main] the same holds after the query
    of the current branch. *)
Theorem nothing_is_committed_before_confirmation :
  (forall fuel config current_branch w,
      guarded (emitted (menu_loop fuel config current_branch) w)
      /\ executor_entries (emitted (menu_loop fuel config current_branch) w)
         <= 1)
  /\ (forall target_branch commit_message pr_title pr_description w,
        exists evs,
          emitted (main target_branch commit_message pr_title pr_description
                        true) w
          = EvGit git_show_current :: evs
          /\ guarded evs
          /\ executor_entries evs <= 1).
Proof.
  split.
  - intros fuel config cur w.
    destruct (guards_menu_loop cur fuel config w) as (evs & L & G).
    unfold emitted. rewrite L, skipn_app_exact.
    split; [exact G | now apply guarded_at_most_once].
  - intros tb cm pt pd w.
    assert (H : exists evs,
               emitted (main tb cm pt pd true) w
               = EvGit git_show_current :: evs /\ guarded evs);
      [|destruct H as (evs & E & G); exists evs;
        split; [exact E|]; split; [exact G|];
        now apply guarded_at_most_once].
    unfold emitted, world_after, main.
    unfold bind at 1. rewrite get_current_branch_run.
    destruct (next_result w git_show_current) as [out|err|]; cbn [snd].
    + destruct (PyStr.truthy (PyStr.strip out)); cbn [negb].
      * assert (G : guards (fuel <- turns_left ;;
                            menu_loop fuel
                              (GitConfig.update_option "source_branch"
                                 (PyStr.strip out) GitConfig.init)
                              (PyStr.strip out))).
        { apply guards_bind; [apply emits_turns_left|].
          intros fuel. apply guards_menu_loop. }
        destruct (G (logged w (EvGit git_show_current))) as (evs & L & Gd).
        unfold world_after in L. rewrite L. cbn [logged log].
        rewrite <- app_assoc, skipn_app_exact. now exists evs.
      * unfold rprint, emit. cbn [snd logged log].
        rewrite <- app_assoc, skipn_app_exact. eexists.
        split; [reflexivity|]. left. repeat constructor.
    + unfold rprint, emit. cbn [PyStr.truthy negb snd logged log].
      rewrite <- app_assoc, skipn_app_exact. eexists.
      split; [reflexivity|]. left. repeat constructor.
    + cbn [logged log]. rewrite skipn_app_exact. exists [].
      split; [reflexivity|]. left. constructor.
Qed.
